(** * A shallow embedding of palanquin's [pdf_to_latex] and [tex_to_pdf]

    The two Python modules under [src/pdf_to_latex/] are modelled here:
    - [pdf_to_latex.py]: [escape_latex], [identify_structure] with its
      line classifiers and [clean_bullet_text], and the list-nesting
      emitter [convert_to_latex];
    - [tex_to_pdf.py]: [_parse_latex_errors], [_needs_multiple_passes] and
      the multi-pass driver [convert_to_pdf], over a small file system with
      the external engine as an arbitrary oracle.

    A Python [str] is a sequence of Unicode code points; it is modelled as
    [list N].  ASCII literals of the source are written with [lit]. *)

From Stdlib Require Import String Ascii.
From stdpp Require Import base list gmap strings.

(* ------------------------------------------------------------------ *)
(** ** Python strings *)

Definition pchar := N.
Definition pstr := list N.

(** An ASCII literal of the source, as code points. *)
Definition lit (s : string) : pstr :=
  map (fun a => N.of_nat (nat_of_ascii a)) (list_ascii_of_string s).

Definition c_nl : pchar := 10%N.
Definition c_backslash : pchar := 92%N.

(** [str.replace(old, new)] for a one-character [old] (every key of the
    escaping table is one character). *)
Definition str_replace (old : pchar) (new : pstr) (s : pstr) : pstr :=
  flat_map (fun c => if N.eqb c old then new else [c]) s.

(** ['\n'.join(xs)]. *)
Fixpoint join_nl (xs : list pstr) : pstr :=
  match xs with
  | [] => []
  | [x] => x
  | x :: xs' => x ++ c_nl :: join_nl xs'
  end.

(** [s.split('\n')]: an explicit separator, so [''.split('\n') == ['']]. *)
Fixpoint split_nl (s : pstr) : list pstr :=
  match s with
  | [] => [[]]
  | c :: s' =>
      if N.eqb c c_nl then [] :: split_nl s'
      else match split_nl s' with
           | [] => [[c]]
           | l :: ls => (c :: l) :: ls
           end
  end.

(** [x in s] for strings: [x] is a contiguous slice of [s]. *)
Fixpoint is_prefix (x s : pstr) : bool :=
  match x, s with
  | [], _ => true
  | a :: x', b :: s' => N.eqb a b && is_prefix x' s'
  | _ :: _, [] => false
  end.

Fixpoint str_contains (s x : pstr) : bool :=
  is_prefix x s ||
  match s with
  | [] => false
  | _ :: s' => str_contains s' x
  end.

(* ------------------------------------------------------------------ *)
(** ** [PDFToLaTeXConverter.escape_latex] *)

(** [self.latex_special_chars]: a dict literal, iterated by [items()] in
    insertion order. *)
Definition latex_special_chars : list (pchar * pstr) :=
  [ (38%N,  lit "\&");
    (37%N,  lit "\%");
    (36%N,  lit "\$");
    (35%N,  lit "\#");
    (94%N,  lit "\textasciicircum{}");
    (95%N,  lit "\_");
    (123%N, lit "\{");
    (125%N, lit "\}");
    (126%N, lit "\textasciitilde{}");
    (92%N,  lit "\textbackslash{}") ].

Definition escape_latex (text : pstr) : pstr :=
  fold_left (fun t '(ch, replacement) => str_replace ch replacement t)
    latex_special_chars text.

(* ------------------------------------------------------------------ *)
(** ** [PDFToLaTeXConverter.convert_to_latex] *)

(** The content types produced by [identify_structure]. *)
Inductive content_type :=
| CTitle | CSection | CSubsection | CBullet1 | CBullet2 | CParagraph.

Definition block := (content_type * pstr)%type.

Record emitter_state := {
  in_itemize : bool;
  in_subitemize : bool
}.

Definition itemize_begin : pstr := lit "\begin{itemize}".
Definition itemize_end : pstr := lit "\end{itemize}".

Definition latex_header : list pstr :=
  [ lit "\documentclass[11pt,a4paper]{article}";
    lit "\usepackage[utf8]{inputenc}";
    lit "\usepackage[T1]{fontenc}";
    lit "\usepackage{geometry}";
    lit "\usepackage{enumitem}";
    lit "\usepackage{parskip}";
    lit "\geometry{margin=1in}";
    [];
    lit "\begin{document}";
    [] ].

Definition latex_footer : list pstr := [ []; lit "\end{document}" ].

(** "Close any open lists": the secondary list first, then the primary. *)
Definition close_lists (st : emitter_state) : list pstr :=
  (if in_subitemize st then [itemize_end] else []) ++
  (if in_itemize st then [itemize_end] else []).

(** One iteration of the [for content_type, content in structured_content]
    loop: the lines appended and the new list state. *)
Definition emit_block (st : emitter_state) (b : block)
  : list pstr * emitter_state :=
  let '(ty, content) := b in
  let escaped_content := escape_latex content in
  match ty with
  | CTitle =>
      ([lit "\title{" ++ escaped_content ++ lit "}"; lit "\maketitle"; []], st)
  | CSection =>
      (close_lists st ++ [lit "\section{" ++ escaped_content ++ lit "}"; []],
       {| in_itemize := false; in_subitemize := false |})
  | CSubsection =>
      (close_lists st ++ [lit "\subsection{" ++ escaped_content ++ lit "}"; []],
       {| in_itemize := false; in_subitemize := false |})
  | CBullet1 =>
      ((if in_subitemize st then [itemize_end] else []) ++
       (if in_itemize st then [] else [itemize_begin]) ++
       [lit "\item " ++ escaped_content],
       {| in_itemize := true; in_subitemize := false |})
  | CBullet2 =>
      ((if in_subitemize st then [] else [itemize_begin]) ++
       [lit "\item " ++ escaped_content],
       {| in_itemize := in_itemize st; in_subitemize := true |})
  | CParagraph =>
      (close_lists st ++ [escaped_content; []],
       {| in_itemize := false; in_subitemize := false |})
  end.

Fixpoint emit_body (st : emitter_state) (bs : list block)
  : list pstr * emitter_state :=
  match bs with
  | [] => ([], st)
  | b :: bs' =>
      let '(ls, st') := emit_block st b in
      let '(ls', st'') := emit_body st' bs' in
      (ls ++ ls', st'')
  end.

Definition initial_emitter_state : emitter_state :=
  {| in_itemize := false; in_subitemize := false |}.

(** The list [latex_content] before it is joined. *)
Definition convert_to_latex_lines (structured_content : list block) : list pstr :=
  let '(body, st) := emit_body initial_emitter_state structured_content in
  latex_header ++ body ++ close_lists st ++ latex_footer.

Definition convert_to_latex (structured_content : list block) : pstr :=
  join_nl (convert_to_latex_lines structured_content).

(** Number of [itemize] environments open after reading the lines [ls]
    from depth [d]; [None] when an [\end{itemize}] closes nothing. *)
Fixpoint itemize_depth (d : nat) (ls : list pstr) : option nat :=
  match ls with
  | [] => Some d
  | l :: ls' =>
      if decide (l = itemize_begin) then itemize_depth (S d) ls'
      else if decide (l = itemize_end) then
        match d with
        | O => None
        | S d' => itemize_depth d' ls'
        end
      else itemize_depth d ls'
  end.

Definition open_lists (st : emitter_state) : nat :=
  (if in_itemize st then 1 else 0) + (if in_subitemize st then 1 else 0).

(** Every backslash of [s] is followed by a [t]: the shape of text whose
    backslashes all come from [\textbackslash{}]. *)
Fixpoint bs_ok (s : pstr) : bool :=
  match s with
  | [] => true
  | c :: s' =>
      (if N.eqb c c_backslash then
         match s' with d :: _ => N.eqb d 116%N | [] => false end
       else true) && bs_ok s'
  end.

(** No line of the text [l] is an [itemize] delimiter. *)
Definition safe_b (l : pstr) : bool :=
  forallb (fun seg => negb (bool_decide (seg = itemize_begin)) &&
                      negb (bool_decide (seg = itemize_end)))
    (split_nl l).

(** A line of [latex_content] is a list delimiter on its own, or text
    in which no delimiter line appears. *)
Definition line_ok (l : pstr) : bool :=
  bool_decide (l = itemize_begin) || bool_decide (l = itemize_end) || safe_b l.

(* ------------------------------------------------------------------ *)
(** ** [PDFToLaTeXConverter.identify_structure] *)

(** [str.isspace] on one code point (CPython's [Py_UNICODE_ISSPACE]), which
    is also what [\s] matches in a [str] regular expression. *)
Definition py_isspace (c : pchar) : bool :=
  ((9 <=? c) && (c <=? 13))%N || ((28 <=? c) && (c <=? 32))%N ||
  (c =? 133)%N || (c =? 160)%N || (c =? 5760)%N ||
  ((8192 <=? c) && (c <=? 8202))%N || (c =? 8232)%N || (c =? 8233)%N ||
  (c =? 8239)%N || (c =? 8287)%N || (c =? 12288)%N.

Fixpoint lstrip (s : pstr) : pstr :=
  match s with
  | c :: s' => if py_isspace c then lstrip s' else s
  | [] => []
  end.

(** [str.strip()]. *)
Definition strip (s : pstr) : pstr := rev (lstrip (rev (lstrip s))).

Definition startswith (s p : pstr) : bool := is_prefix p s.

Definition endswith (s p : pstr) : bool := is_prefix (rev p) (rev s).

(** The string methods that consult the Unicode character database.  The
    classifier is defined for any such database. *)
Record str_methods := {
  str_isupper : pstr -> bool;
  str_lower : pstr -> pstr
}.

Definition c_black_circle : pchar := 9679%N.  (* U+25CF, the glyph "●" *)
Definition c_bullet : pchar := 8226%N.        (* U+2022, the glyph "•" *)
Definition c_white_circle : pchar := 9675%N.  (* U+25CB, the glyph "○" *)

Section Classifier.
Context (U : str_methods).

(** [is_title(self, line, all_lines)]; [all_lines] is not read. *)
Definition is_title (line : pstr) (all_lines : list pstr) : bool :=
  if (Nat.ltb (length line) 50) && str_isupper U line then true
  else if str_contains line (lit "App") || str_contains line (lit "System") ||
          str_contains line (lit "Project") then true
  else false.

Definition section_keywords : list pstr :=
  [lit "Summary"; lit "Features"; lit "Introduction"; lit "Overview";
   lit "Requirements"; lit "Implementation"; lit "Conclusion"].

Definition is_section_heading (line : pstr) : bool :=
  existsb (fun keyword => str_contains (str_lower U line) (str_lower U keyword))
    section_keywords && Nat.ltb (length line) 50.

End Classifier.

Definition is_subsection_heading (line : pstr) : bool :=
  if endswith line (lit ":") && Nat.ltb (length line) 80 then true else false.

Definition is_primary_bullet (line : pstr) : bool :=
  startswith line [c_black_circle] || startswith line [c_bullet] ||
  startswith line (lit "- ").

Definition is_secondary_bullet (line : pstr) : bool :=
  startswith line [c_white_circle] || startswith line (lit "  " ++ [c_white_circle]) ||
  startswith line (lit "    " ++ [c_white_circle]).

(** The character class [[●•○\-]]. *)
Definition is_bullet_glyph (c : pchar) : bool :=
  (c =? c_black_circle)%N || (c =? c_bullet)%N || (c =? c_white_circle)%N ||
  (c =? 45)%N.

(** [re.sub(r'^[\s]*[●•○\-]\s*', '', line).strip()]: the anchored pattern
    matches at most once, at the start of the line. *)
Definition clean_bullet_text (line : pstr) : pstr :=
  let cleaned :=
    match lstrip line with
    | g :: rest => if is_bullet_glyph g then lstrip rest else line
    | [] => line
    end in
  strip cleaned.

Definition nonempty (s : pstr) : bool :=
  match s with [] => false | _ :: _ => true end.

Section Structure.
Context (U : str_methods).

(** The body of the loop for one stripped, non-empty [line]; [lines] is the
    whole [text.split('\n')], passed to [is_title]. *)
Definition classify_line (line : pstr) (lines : list pstr) : block :=
  if is_title U line lines then (CTitle, line)
  else if is_section_heading U line then (CSection, line)
  else if is_subsection_heading line then (CSubsection, line)
  else if is_primary_bullet line then (CBullet1, clean_bullet_text line)
  else if is_secondary_bullet line then (CBullet2, clean_bullet_text line)
  else (CParagraph, line).

Fixpoint identify_loop (lines : list pstr) (rest : list pstr) : list block :=
  match rest with
  | [] => []
  | raw :: rest' =>
      let line := strip raw in
      match line with
      | [] => identify_loop lines rest'
      | _ :: _ => classify_line line lines :: identify_loop lines rest'
      end
  end.

Definition identify_structure (text : pstr) : list block :=
  let lines := split_nl text in
  identify_loop lines lines.

End Structure.

(* ------------------------------------------------------------------ *)
(** ** [LaTeXToPDFConverter._parse_latex_errors] *)

Definition is_error_line (line : pstr) : bool :=
  startswith line (lit "!") || str_contains line (lit "Error:").

Definition is_warning_line (line : pstr) : bool :=
  str_contains line (lit "Warning:") || startswith line (lit "LaTeX Warning:").

(** [lines[max(0, i-2) : min(len(lines), i+3)]], gathered index by index as
    in [for j in range(start, end)]. *)
Definition error_context (lines : list pstr) (i : nat) : list pstr :=
  let start := Nat.max 0 (i - 2) in
  let end_ := Nat.min (length lines) (i + 3) in
  map (fun j => nth j lines []) (seq start (end_ - start)).

(** [for i, line in enumerate(lines)], [rest] being [lines[i:]]. *)
Fixpoint parse_loop (lines : list pstr) (i : nat) (rest : list pstr)
    (errors warnings : list pstr) : list pstr * list pstr :=
  match rest with
  | [] => (errors, warnings)
  | line :: rest' =>
      if is_error_line line then
        parse_loop lines (S i) rest' (errors ++ [join_nl (error_context lines i)])
          warnings
      else if is_warning_line line then
        parse_loop lines (S i) rest' errors (warnings ++ [strip line])
      else parse_loop lines (S i) rest' errors warnings
  end.

Definition parse_latex_errors (log_content : pstr) : list pstr * list pstr :=
  let lines := split_nl log_content in
  parse_loop lines 0 lines [] [].

(** ** [LaTeXToPDFConverter._needs_multiple_passes] *)

Definition rerun_indicators : list pstr :=
  [ lit "Rerun to get cross-references right";
    lit "Label(s) may have changed";
    lit "Rerun LaTeX";
    lit "Table widths have changed" ].

Definition needs_multiple_passes (log_content : pstr) : bool :=
  existsb (fun indicator => str_contains log_content indicator) rerun_indicators.

(* ------------------------------------------------------------------ *)
(** ** Files, exceptions and the effects of [convert_to_pdf] *)

(** An absolute path as its list of names. *)
Abbreviation path := (list pstr) (only parsing).

Inductive node := Dir | File (contents : pstr).

#[global] Instance node_eq_dec : EqDecision node.
Proof. solve_decision. Defined.

(** The file system, and the pass numbers handed to the engine so far. *)
Record world := {
  w_fs : gmap path node;
  w_passes : list nat
}.

(** The exceptions [convert_to_pdf] can raise. *)
Inductive py_exc :=
| FileNotFoundError (msg : pstr)
| ValueError (msg : pstr)
| OSError (msg : pstr)
| Exception (msg : pstr)
| UnboundLocalError (name : pstr).

Inductive result (A : Type) := Ok (a : A) | Raise (e : py_exc).
Arguments Ok {A} a.
Arguments Raise {A} e.

(** State and exceptions. *)
Definition M (A : Type) := world -> result A * world.

Definition retM {A} (a : A) : M A := fun w => (Ok a, w).

Definition raiseM {A} (e : py_exc) : M A := fun w => (Raise e, w).

Definition bindM {A B} (m : M A) (k : A -> M B) : M B :=
  fun w =>
    match m w with
    | (Ok a, w') => k a w'
    | (Raise e, w') => (Raise e, w')
    end.

Notation "'let*' x ':=' m 'in' k" := (bindM m (fun x => k))
  (at level 200, x name, m at level 100, k at level 200).

Definition set_fs (fs : gmap path node) (w : world) : world :=
  {| w_fs := fs; w_passes := w_passes w |}.

(** [try: m except Exception: pass]; a failing step here leaves the
    state as it found it. *)
Definition try_ignore (m : M unit) : M unit :=
  fun w => let '(_, w') := m w in (Ok tt, w').

Definition path_name (p : path) : pstr := List.last p [].

Definition path_parent (p : path) : path := removelast p.

Definition c_dot : pchar := 46%N.

Definition c_slash : pchar := 47%N.

Fixpoint join_with (sep : pstr) (xs : list pstr) : pstr :=
  match xs with
  | [] => []
  | [x] => x
  | x :: xs' => x ++ sep ++ join_with sep xs'
  end.

Definition path_str (p : path) : pstr := c_slash :: join_with [c_slash] p.

(** [name.rfind('.')], [None] standing for [-1]. *)
Fixpoint rfind_dot (s : pstr) (i : nat) (found : option nat) : option nat :=
  match s with
  | [] => found
  | c :: s' => rfind_dot s' (S i) (if N.eqb c c_dot then Some i else found)
  end.

(** [PurePath.suffix]: from the last dot of the name, when that dot is
    neither the first nor the last character. *)
Definition name_suffix (name : pstr) : pstr :=
  match rfind_dot name 0 None with
  | Some i => if Nat.ltb 0 i && Nat.ltb i (length name - 1) then skipn i name else []
  | None => []
  end.

Definition path_suffix (p : path) : pstr := name_suffix (path_name p).

(** [PurePath.with_suffix(suffix)]. *)
Definition with_suffix (p : path) (suffix : pstr) : path :=
  let name := path_name p in
  let stem := firstn (length name - length (name_suffix name)) name in
  path_parent p ++ [stem ++ suffix].

Definition path_exists (p : path) : M bool :=
  fun w => (Ok (match w_fs w !! p with Some _ => true | None => false end), w).

Definition is_file (p : path) : M bool :=
  fun w => (Ok (match w_fs w !! p with Some (File _) => true | _ => false end), w).

Definition parent_is_dir (fs : gmap path node) (p : path) : bool :=
  match path_parent p with
  | [] => true
  | q => bool_decide (fs !! q = Some Dir)
  end.

Definition err_no_such_file : pstr := lit "No such file or directory".
Definition err_is_a_directory : pstr := lit "Is a directory".

(** [shutil.copy2(src, dst)]: into [dst] when it is a directory. *)
Definition copy2 (src dst : path) : M unit :=
  fun w =>
    let fs := w_fs w in
    match fs !! src with
    | Some (File c) =>
        let target :=
          match fs !! dst with Some Dir => dst ++ [path_name src] | _ => dst end in
        match fs !! target with
        | Some Dir => (Raise (OSError err_is_a_directory), w)
        | _ =>
            if parent_is_dir fs target
            then (Ok tt, set_fs (<[target := File c]> fs) w)
            else (Raise (FileNotFoundError err_no_such_file), w)
        end
    | Some Dir => (Raise (OSError err_is_a_directory), w)
    | None => (Raise (FileNotFoundError err_no_such_file), w)
    end.

(** [Path.iterdir()]: the entries directly inside [d]. *)
Definition iterdir (d : path) : M (list path) :=
  fun w =>
    if bool_decide (d = []) || bool_decide (w_fs w !! d = Some Dir) then
      (Ok (List.filter (fun p => bool_decide (p <> [] /\ path_parent p = d))
             (map fst (map_to_list (w_fs w)))), w)
    else (Raise (FileNotFoundError err_no_such_file), w).

(** [tempfile.TemporaryDirectory()] as a [with] block: the directory is
    created, the body runs, and the directory is removed with everything
    under it whether the body returned or raised (a tree that is already
    gone is ignored by the cleanup). *)
Definition rmtree (d : path) (fs : gmap path node) : gmap path node :=
  filter (fun '(p, _) => ~ (d `prefix_of` p)) fs.

Definition with_temporary_directory {A} (tmp : path) (body : path -> M A) : M A :=
  fun w =>
    let '(r, w') := body tmp (set_fs (<[tmp := Dir]> (w_fs w)) w) in
    (r, set_fs (rmtree tmp (w_fs w')) w').

(** The result of [subprocess.run] with [capture_output=True]. *)
Record completed_process := {
  returncode : Z;
  proc_stdout : pstr;
  proc_stderr : pstr
}.

Inductive run_outcome :=
| Completed (r : completed_process)
| TimeoutExpired
| RunFailed (err : pstr).

(** The external engine: given the pass number and the file system, what
    the process returns and the file system it leaves. *)
Definition engine_oracle := nat -> gmap path node -> run_outcome * gmap path node.

Definition extensions_to_copy : list pstr :=
  [lit ".bib"; lit ".cls"; lit ".sty"; lit ".bst"; lit ".png"; lit ".jpg";
   lit ".jpeg"; lit ".pdf"; lit ".eps"; lit ".svg"].

Definition c2 : pstr := [c_nl; c_nl].

(** The message of the exception raised on a nonzero exit. *)
Definition compilation_failed_msg (errors : list pstr) (stderr log_content : pstr) : pstr :=
  lit "LaTeX compilation failed!" ++ c2 ++
  (match errors with
   | [] => []
   | _ :: _ => lit "ERRORS:" ++ [c_nl] ++ join_with c2 errors ++ c2
   end) ++
  (match stderr with
   | [] => []
   | _ :: _ => lit "STDERR:" ++ [c_nl] ++ stderr ++ c2
   end) ++
  (match log_content with
   | [] => []
   | _ :: _ => lit "For full details, check the log output above."
   end).

Definition msg_pdf_not_created : pstr :=
  lit "PDF file was not created, but no obvious errors were found".

Definition msg_bad_extension : pstr := lit "Input file must have .tex extension".

Definition msg_timeout : pstr := lit "LaTeX compilation timed out (5 minutes)".

(** [range(1, max_passes + 1)]. *)
Definition pass_numbers (max_passes : Z) : list nat := seq 1 (Z.to_nat max_passes).

Section Driver.
Context (U : str_methods).
(** [self.engine], [self.verbose], and the engine itself. *)
Context (engine_name : pstr) (verbose : bool) (engine : engine_oracle).

(** [_copy_additional_files(source_dir, dest_dir)]. *)
Fixpoint copy_each (dest_dir : path) (files : list path) : M unit :=
  match files with
  | [] => retM tt
  | file_path :: rest =>
      let* isf := is_file file_path in
      let* _ :=
        if isf && existsb (fun e => bool_decide (str_lower U (path_suffix file_path) = e))
                    extensions_to_copy
        then try_ignore (copy2 file_path dest_dir)
        else retM tt in
      copy_each dest_dir rest
  end.

Definition copy_additional_files (source_dir dest_dir : path) : M unit :=
  let* files := iterdir source_dir in
  copy_each dest_dir files.

(** [_run_latex_command(tex_file, output_dir, pass_number)]. *)
Definition run_latex_command (pass_number : nat) : M completed_process :=
  fun w =>
    let '(o, fs') := engine pass_number (w_fs w) in
    let w' := {| w_fs := fs'; w_passes := w_passes w ++ [pass_number] |} in
    match o with
    | Completed r => (Ok r, w')
    | TimeoutExpired => (Raise (Exception msg_timeout), w')
    | RunFailed e =>
        (Raise (Exception (lit "Failed to run " ++ engine_name ++ lit ": " ++ e)), w')
    end.

(** Reading the log: an absent or unreadable log reads as [""]. *)
Definition read_log (log_file : path) : M pstr :=
  fun w => (Ok (match w_fs w !! log_file with Some (File c) => c | _ => [] end), w).

(** [for pass_num in range(1, max_passes + 1)]; the result is the
    [log_content] of the last pass run, [None] when no pass ran. *)
Fixpoint pass_loop (log_file : path) (max_passes : Z) (ps : list nat)
    (last_log : option pstr) : M (option pstr) :=
  match ps with
  | [] => retM last_log
  | pass_num :: ps' =>
      let* result := run_latex_command pass_num in
      let* log_content := read_log log_file in
      if negb (Z.eqb (returncode result) 0) then
        let errors := fst (parse_latex_errors log_content) in
        raiseM (Exception (compilation_failed_msg errors (proc_stderr result) log_content))
      else if Z.ltb (Z.of_nat pass_num) max_passes && needs_multiple_passes log_content
      then pass_loop log_file max_passes ps' (Some log_content)
      else retM (Some log_content)
  end.

(** The part of the [with] block from the pass loop on. *)
Definition compile_in_scratch (log_file pdf_file output_pdf : path) (max_passes : Z)
  : M path :=
  let* last_log := pass_loop log_file max_passes (pass_numbers max_passes) None in
  let* pdf_ok := path_exists pdf_file in
  if negb pdf_ok then raiseM (Exception msg_pdf_not_created) else
  let* _ := copy2 pdf_file output_pdf in
  let* _ :=
    match verbose, last_log with
    | true, None => raiseM (UnboundLocalError (lit "log_content"))
    | _, _ => retM tt
    end in
  retM output_pdf.

(** [convert_to_pdf(tex_file, output_pdf, max_passes)]; [tmp] is the
    name [tempfile] picks for the scratch directory. *)
Definition convert_to_pdf (tmp : path) (tex_file : path) (output_pdf : option path)
    (max_passes : Z) : M path :=
  let tex_path := tex_file in
  let* ex := path_exists tex_path in
  if negb ex then
    raiseM (FileNotFoundError (lit "LaTeX file not found: " ++ path_str tex_file))
  else if negb (bool_decide (str_lower U (path_suffix tex_path) = lit ".tex")) then
    raiseM (ValueError msg_bad_extension)
  else
    let output_pdf :=
      match output_pdf with
      | None => with_suffix tex_path (lit ".pdf")
      | Some p => p
      end in
    with_temporary_directory tmp (fun temp_path =>
      let temp_tex := temp_path ++ [path_name tex_path] in
      let* _ := copy2 tex_path temp_tex in
      let* _ := copy_additional_files (path_parent tex_path) temp_path in
      let log_file := temp_path ++ [path_name (with_suffix tex_path (lit ".log"))] in
      let pdf_file := temp_path ++ [path_name (with_suffix tex_path (lit ".pdf"))] in
      compile_in_scratch log_file pdf_file output_pdf max_passes).

End Driver.

(* ------------------------------------------------------------------ *)
(** ** A character database for concrete runs *)

Definition ascii_upper (c : pchar) : bool := ((65 <=? c) && (c <=? 90))%N.
Definition ascii_lower_char (c : pchar) : bool := ((97 <=? c) && (c <=? 122))%N.

(** [str.isupper] and [str.lower] restricted to ASCII letters, which is
    what they do on ASCII text. *)
Definition ascii_methods : str_methods := {|
  str_isupper := fun s =>
    forallb (fun c => negb (ascii_lower_char c)) s && existsb ascii_upper s;
  str_lower := map (fun c => if ascii_upper c then (c + 32)%N else c)
|}.

(** The text [read_log] returns for a log file in the file system [fs]. *)
Definition log_of (fs : gmap path node) (log_file : path) : pstr :=
  match fs !! log_file with Some (File c) => c | _ => [] end.

(** A computation that never ends in a [ValueError], from any world. *)
Definition no_value_error {A} (m : M A) : Prop :=
  forall (w : world) (msg : pstr), fst (m w) <> Raise (ValueError msg).

(** A scratch directory is absent from [fs]: no entry lies under it. *)
Definition scratch_absent (tmp : path) (fs : gmap path node) : Prop :=
  map_Forall (fun q _ => ~ tmp `prefix_of` q) fs.

#[global] Instance scratch_absent_dec tmp fs : Decision (scratch_absent tmp fs).
Proof. unfold scratch_absent. apply _. Defined.

(* ------------------------------------------------------------------ *)
(** ** A concrete scene for runs of the driver *)

Definition ex_home : path := [lit "home"].
Definition ex_tex : path := [lit "home"; lit "doc.tex"].
Definition ex_TEX : path := [lit "home"; lit "notes.TEX"].
Definition ex_out_pdf : path := [lit "home"; lit "doc.pdf"].
Definition ex_tmp : path := [lit "tmp"].
Definition ex_log_file : path := [lit "tmp"; lit "doc.log"].
Definition ex_pdf_file : path := [lit "tmp"; lit "doc.pdf"].

Definition ex_fs : gmap path node :=
  <[ex_home := Dir]> (<[ex_tex := File (lit "\documentclass{article}")]>
    (<[ex_TEX := File (lit "\documentclass{article}")]> ∅)).

Definition ex_world : world := {| w_fs := ex_fs; w_passes := [] |}.

Definition ex_bad_log : pstr :=
  lit "This is pdfTeX" ++ [c_nl] ++ lit "! Undefined control sequence." ++ [c_nl] ++
  lit "l.3 \foo".

Definition ex_failed : completed_process :=
  {| returncode := 1; proc_stdout := []; proc_stderr := lit "exit 1" |}.

(** An engine that fails on every pass, leaving [ex_bad_log]. *)
Definition ex_failing_engine : engine_oracle :=
  fun _ fs => (Completed ex_failed, <[ex_log_file := File ex_bad_log]> fs).

Definition ex_ok : completed_process :=
  {| returncode := 0; proc_stdout := []; proc_stderr := [] |}.

Definition ex_fs1 : gmap path node :=
  <[ex_log_file := File (lit "Rerun to get cross-references right")]> ex_fs.

Definition ex_fs2 : gmap path node :=
  <[ex_pdf_file := File (lit "%PDF")]> (<[ex_log_file := File (lit "Output written")]> ex_fs1).

(** An engine whose first pass asks for a rerun and whose second pass
    writes the PDF. *)
Definition ex_two_pass_engine : engine_oracle :=
  fun p fs =>
    match p with
    | 1 => (Completed ex_ok, <[ex_log_file := File (lit "Rerun to get cross-references right")]> fs)
    | _ => (Completed ex_ok,
            <[ex_pdf_file := File (lit "%PDF")]> (<[ex_log_file := File (lit "Output written")]> fs))
    end.

Definition ex_ctx_log : pstr :=
  lit "a" ++ [c_nl] ++ lit "b" ++ [c_nl] ++ lit "! x" ++ [c_nl] ++ lit "c".

(* ------------------------------------------------------------------ *)
(** ** Further definitions: text extraction, the engine check and helpers *)

Definition no_lead (s : pstr) : bool :=
  match s with c :: _ => negb (py_isspace c) | [] => true end.

Definition stripped_lines (text : pstr) : list pstr :=
  List.filter nonempty (map strip (split_nl text)).

Definition extract_text_pages (pages : list (option pstr)) : pstr :=
  strip (fold_left (fun text page_text =>
                      match page_text with
                      | Some t => if nonempty t then text ++ (t ++ [c_nl; c_nl]) else text
                      | None => text
                      end) pages []).

Definition is_bullet_block (b : block) : bool :=
  match fst b with CBullet1 | CBullet2 => true | _ => false end.

Definition is_item_line (l : pstr) : bool := startswith l (lit "\item ").

(** Every prefix of [ls], read from depth [d], stays within two open lists. *)
Definition prefix_depths_bounded (d : nat) (ls : list pstr) : Prop :=
  forall n, exists k, itemize_depth d (firstn n ls) = Some k /\ k <= 2.



(** [self.supported_engines]. *)
Definition supported_engines : list pstr :=
  [lit "pdflatex"; lit "xelatex"; lit "lualatex"].

Definition msg_no_engine : pstr :=
  lit "No LaTeX engine found. Please install a LaTeX distribution." ++ [c_nl] ++
  lit "For Ubuntu/Debian: sudo apt-get install texlive-full" ++ [c_nl] ++
  lit "For macOS: brew install --cask mactex" ++ [c_nl] ++
  lit "For Windows: Download MiKTeX or TeX Live".

(** [_check_latex_installation()]; [which] says whether [shutil.which]
    finds a command, and the result is the new [self.engine]. *)
Definition check_latex_installation (which : pstr -> bool) (engine : pstr) : result pstr :=
  if which engine then Ok engine
  else
    match List.filter which supported_engines with
    | e :: _ => Ok e
    | [] => Raise (Exception msg_no_engine)
    end.

(** [pdfplumber]: the text [page.extract_text()] gives for each page of
    the PDF at a path ([None] for a page without text), or the message
    of the exception opening or reading it raises. *)
Definition pdf_reader := path -> gmap path node -> pstr + list (option pstr).

(** [extract_text_from_pdf(pdf_path)]. *)
Definition extract_text_from_pdf (reader : pdf_reader) (pdf_path : path) : M pstr :=
  fun w =>
    match reader pdf_path (w_fs w) with
    | inl e => (Raise (Exception (lit "Error reading PDF: " ++ e)), w)
    | inr pages => (Ok (extract_text_pages pages), w)
    end.

(** [with open(p, 'w') as f: f.write(s)]. *)
Definition write_text (p : path) (s : pstr) : M unit :=
  fun w =>
    let fs := w_fs w in
    match fs !! p with
    | Some Dir => (Raise (OSError err_is_a_directory), w)
    | _ =>
        if parent_is_dir fs p
        then (Ok tt, set_fs (<[p := File s]> fs) w)
        else (Raise (FileNotFoundError err_no_such_file), w)
    end.

(** [convert_pdf_to_latex(pdf_path, output_path)]. *)
Definition convert_pdf_to_latex (U : str_methods) (reader : pdf_reader) (pdf_path : path)
    (output_path : option path) : M pstr :=
  let output_path :=
    match output_path with
    | None => with_suffix pdf_path (lit ".tex")
    | Some p => p
    end in
  let* text := extract_text_from_pdf reader pdf_path in
  let structured_content := identify_structure U text in
  let latex_content := convert_to_latex structured_content in
  let* _ := write_text output_path latex_content in
  retM latex_content.





Definition ex_pages : list (option pstr) :=
  [Some (lit "Intro" ++ [c_nl; c_bullet] ++ lit " first"); None; Some []; Some (lit "End")].

(** A PDF reader that finds [ex_pages] in every file. *)
Definition ex_reader : pdf_reader := fun _ _ => inr ex_pages.

(* ================================================================== *)
(** * Proofs *)

(** ** Strings *)

Lemma split_nl_nonempty (s : pstr) : split_nl s <> [].
Proof.
  induction s as [|c s IH]; simpl; [discriminate|].
  destruct (N.eqb c c_nl); [discriminate|].
  destruct (split_nl s); discriminate.
Qed.

Lemma split_nl_app_nl (x y : pstr) :
  split_nl (x ++ c_nl :: y) = split_nl x ++ split_nl y.
Proof.
  induction x as [|c x IH]; simpl.
  - reflexivity.
  - destruct (N.eqb c c_nl) eqn:E; [rewrite IH; reflexivity|].
    rewrite IH. destruct (split_nl x) as [|l ls] eqn:Ex.
    + exfalso; exact (split_nl_nonempty x Ex).
    + reflexivity.
Qed.

Lemma split_nl_join (ls : list pstr) :
  ls <> [] -> split_nl (join_nl ls) = concat (map split_nl ls).
Proof.
  induction ls as [|x ls IH]; intros Hne; [congruence|].
  destruct ls as [|y ls].
  - simpl. rewrite app_nil_r. reflexivity.
  - change (join_nl (x :: y :: ls)) with (x ++ c_nl :: join_nl (y :: ls)).
    rewrite split_nl_app_nl, IH by discriminate. reflexivity.
Qed.

(** Splitting text that starts with a newline-free prefix [p]. *)
Lemma split_nl_prefix (p x : pstr) :
  forallb (fun c => negb (N.eqb c c_nl)) p = true ->
  exists hd tl, split_nl x = hd :: tl /\ split_nl (p ++ x) = (p ++ hd) :: tl.
Proof.
  induction p as [|c p IH]; simpl; intros Hp.
  - destruct (split_nl x) as [|hd tl] eqn:E.
    + exfalso; exact (split_nl_nonempty x E).
    + exists hd, tl; split; reflexivity.
  - apply andb_prop in Hp as [Hc Hp].
    destruct (IH Hp) as (hd & tl & Hx & Hpx).
    exists hd, tl; split; [exact Hx|].
    destruct (N.eqb c c_nl); [discriminate|].
    rewrite Hpx. reflexivity.
Qed.

Lemma bs_ok_app (x y : pstr) :
  bs_ok x = true -> bs_ok y = true -> bs_ok (x ++ y) = true.
Proof.
  induction x as [|c x IH]; simpl; intros Hx Hy; [exact Hy|].
  apply andb_prop in Hx as [Hc Hx].
  rewrite IH by assumption. rewrite andb_true_r.
  destruct (N.eqb c c_backslash); [|reflexivity].
  destruct x; [discriminate|exact Hc].
Qed.

Lemma bs_ok_replace_backslash (t : pstr) :
  bs_ok (str_replace c_backslash (lit "\textbackslash{}") t) = true.
Proof.
  induction t as [|c t IH]; [reflexivity|].
  unfold str_replace; simpl flat_map; fold (str_replace c_backslash (lit "\textbackslash{}") t).
  apply bs_ok_app; [|exact IH].
  destruct (N.eqb c c_backslash) eqn:E; [reflexivity|].
  simpl. rewrite E. reflexivity.
Qed.

(** The backslash entry comes last in [latex_special_chars], so every
    backslash of an escaped text is the one of a [\textbackslash{}]. *)
Lemma bs_ok_escape_latex (s : pstr) : bs_ok (escape_latex s) = true.
Proof.
  unfold escape_latex. cbn [fold_left latex_special_chars].
  apply bs_ok_replace_backslash.
Qed.

Lemma bs_ok_segments (s : pstr) :
  bs_ok s = true -> forallb bs_ok (split_nl s) = true.
Proof.
  induction s as [|c s IH]; simpl; intros H; [reflexivity|].
  apply andb_prop in H as [Hc Hs].
  specialize (IH Hs).
  destruct (N.eqb c c_nl) eqn:Enl; simpl; [rewrite IH; reflexivity|].
  destruct (split_nl s) as [|l ls] eqn:E; simpl.
  - exfalso; exact (split_nl_nonempty s E).
  - simpl in IH. apply andb_prop in IH as [Hl Hls].
    rewrite Hl, Hls, !andb_true_r.
    destruct (N.eqb c c_backslash); [|reflexivity].
    destruct s as [|d s]; [discriminate|].
    apply N.eqb_eq in Hc; subst d.
    simpl in E. destruct (split_nl s); inversion E; reflexivity.
Qed.

(** ** The emitter keeps its lists balanced *)

Lemma bs_ok_safe (s : pstr) : bs_ok s = true -> safe_b s = true.
Proof.
  intros H. apply bs_ok_segments in H. unfold safe_b.
  rewrite forallb_forall in *. intros seg Hin. specialize (H seg Hin).
  rewrite !bool_decide_eq_false_2; [reflexivity| |];
    intros ->; vm_compute in H; discriminate.
Qed.

Lemma safe_prefixed (p x : pstr) :
  forallb (fun c => negb (N.eqb c c_nl)) p = true ->
  (forall hd, p ++ hd <> itemize_begin /\ p ++ hd <> itemize_end) ->
  bs_ok x = true ->
  safe_b (p ++ x) = true.
Proof.
  intros Hp Hhead Hx.
  destruct (split_nl_prefix p x Hp) as (hd & tl & Ex & Epx).
  apply bs_ok_segments in Hx. rewrite Ex in Hx. simpl in Hx.
  apply andb_prop in Hx as [_ Htl].
  unfold safe_b. rewrite Epx. simpl.
  destruct (Hhead hd) as [H1 H2].
  rewrite !bool_decide_eq_false_2 by assumption. simpl.
  rewrite forallb_forall in *. intros seg Hin. specialize (Htl seg Hin).
  rewrite !bool_decide_eq_false_2; [reflexivity| |];
    intros ->; vm_compute in Htl; discriminate.
Qed.

Lemma safe_not_delim (l : pstr) :
  safe_b l = true -> l <> itemize_begin /\ l <> itemize_end.
Proof.
  intros H; split; intros ->; vm_compute in H; discriminate.
Qed.

Lemma safe_line_ok (l : pstr) : safe_b l = true -> line_ok l = true.
Proof. intros H. unfold line_ok. rewrite H, !orb_true_r. reflexivity. Qed.

Ltac prefix_heads :=
  let hd := fresh "hd" in
  intros hd; split; intros Heq;
  apply (f_equal (firstn 2)) in Heq; vm_compute in Heq; discriminate.

Ltac safe_tac :=
  first
    [ apply bs_ok_safe, bs_ok_escape_latex
    | reflexivity
    | apply safe_prefixed;
      [ reflexivity
      | prefix_heads
      | repeat apply bs_ok_app; first [apply bs_ok_escape_latex | reflexivity] ] ].

Lemma depth_begin (d : nat) (r : list pstr) :
  itemize_depth d (itemize_begin :: r) = itemize_depth (S d) r.
Proof. reflexivity. Qed.

Lemma depth_end (d : nat) (r : list pstr) :
  itemize_depth (S d) (itemize_end :: r) = itemize_depth d r.
Proof. reflexivity. Qed.

Lemma depth_end0 (r : list pstr) : itemize_depth 0 (itemize_end :: r) = None.
Proof. reflexivity. Qed.

Lemma depth_safe (l : pstr) (d : nat) (r : list pstr) :
  safe_b l = true -> itemize_depth d (l :: r) = itemize_depth d r.
Proof.
  intros H. destruct (safe_not_delim l H) as [H1 H2]. cbn [itemize_depth].
  rewrite !decide_False by assumption. reflexivity.
Qed.

Lemma itemize_depth_app (d : nat) (l1 l2 : list pstr) :
  itemize_depth d (l1 ++ l2) =
  match itemize_depth d l1 with
  | Some d' => itemize_depth d' l2
  | None => None
  end.
Proof.
  revert d; induction l1 as [|l l1 IH]; intros d; cbn [itemize_depth app];
    [reflexivity|].
  destruct (decide (l = itemize_begin)); [apply IH|].
  destruct (decide (l = itemize_end)); [|apply IH].
  destruct d; [reflexivity|apply IH].
Qed.

Ltac depth_step :=
  match goal with
  | |- context [itemize_depth _ (itemize_begin :: _)] => rewrite depth_begin
  | |- context [itemize_depth (S _) (itemize_end :: _)] => rewrite depth_end
  | |- context [itemize_depth _ (?l :: _)] => rewrite (depth_safe l) by safe_tac
  end.

Lemma emit_block_depth (st : emitter_state) (b : block) (d : nat) :
  itemize_depth (open_lists st + d) (fst (emit_block st b)) =
  Some (open_lists (snd (emit_block st b)) + d).
Proof.
  destruct b as [ty content], st as [[|] [|]], ty;
    cbn [emit_block fst snd app close_lists open_lists in_itemize in_subitemize Nat.add];
    repeat depth_step; reflexivity.
Qed.

Lemma emit_block_lines_ok (st : emitter_state) (b : block) :
  forallb line_ok (fst (emit_block st b)) = true.
Proof.
  destruct b as [ty content], st as [[|] [|]], ty;
    cbn [emit_block fst snd app close_lists in_itemize in_subitemize forallb];
    repeat (apply andb_true_intro; split);
    first [ reflexivity | apply safe_line_ok; safe_tac ].
Qed.

Lemma emit_body_depth (bs : list block) (st : emitter_state) (d : nat) :
  itemize_depth (open_lists st + d) (fst (emit_body st bs)) =
  Some (open_lists (snd (emit_body st bs)) + d).
Proof.
  revert st; induction bs as [|b bs IH]; intros st; [reflexivity|].
  simpl. pose proof (emit_block_depth st b d) as Hb.
  destruct (emit_block st b) as [ls st'] eqn:Eb. simpl in Hb.
  specialize (IH st').
  destruct (emit_body st' bs) as [ls' st''] eqn:Ebs. simpl in *.
  rewrite itemize_depth_app, Hb. exact IH.
Qed.

Lemma emit_body_lines_ok (bs : list block) (st : emitter_state) :
  forallb line_ok (fst (emit_body st bs)) = true.
Proof.
  revert st; induction bs as [|b bs IH]; intros st; [reflexivity|].
  simpl. pose proof (emit_block_lines_ok st b) as Hb.
  destruct (emit_block st b) as [ls st'] eqn:Eb. simpl in Hb.
  specialize (IH st').
  destruct (emit_body st' bs) as [ls' st''] eqn:Ebs. simpl in *.
  rewrite forallb_app, Hb, IH. reflexivity.
Qed.

Lemma close_lists_depth (st : emitter_state) (d : nat) :
  itemize_depth (open_lists st + d) (close_lists st) = Some d.
Proof. destruct st as [[|] [|]]; reflexivity. Qed.

Lemma close_lists_lines_ok (st : emitter_state) :
  forallb line_ok (close_lists st) = true.
Proof. destruct st as [[|] [|]]; reflexivity. Qed.

Lemma depth_safe_segments (l : pstr) (d : nat) (r : list pstr) :
  safe_b l = true -> itemize_depth d (split_nl l ++ r) = itemize_depth d r.
Proof.
  unfold safe_b. generalize (split_nl l) as segs.
  induction segs as [|seg segs IH]; intros H; [reflexivity|].
  simpl in H. apply andb_prop in H as [Hseg H].
  apply andb_prop in Hseg as [H1 H2].
  apply negb_true_iff, bool_decide_eq_false in H1, H2.
  simpl app. cbn [itemize_depth].
  rewrite !decide_False by assumption. apply IH, H.
Qed.

(** Re-reading the joined lines line by line gives the same depth. *)
Lemma depth_segments (ls : list pstr) (d : nat) :
  forallb line_ok ls = true ->
  itemize_depth d (concat (map split_nl ls)) = itemize_depth d ls.
Proof.
  revert d; induction ls as [|l ls IH]; intros d H; [reflexivity|].
  simpl in H. apply andb_prop in H as [Hl H].
  cbn [map concat]. unfold line_ok in Hl.
  destruct (bool_decide (l = itemize_begin)) eqn:Eb.
  { apply bool_decide_eq_true in Eb; subst l.
    change (split_nl itemize_begin) with [itemize_begin]. simpl app.
    rewrite !depth_begin. apply IH, H. }
  destruct (bool_decide (l = itemize_end)) eqn:Ee.
  { apply bool_decide_eq_true in Ee; subst l.
    change (split_nl itemize_end) with [itemize_end]. simpl app.
    destruct d as [|d]; [reflexivity|].
    rewrite !depth_end. apply IH, H. }
  simpl in Hl.
  rewrite depth_safe_segments, depth_safe by assumption. apply IH, H.
Qed.

Lemma latex_header_depth (d : nat) : itemize_depth d latex_header = Some d.
Proof. reflexivity. Qed.

(** ** Claims C1 and C2 *)

(** C1 (code_bug).  [escape_latex] applies its table in insertion order
    and the backslash entry comes last, so the backslashes introduced by
    the earlier entries are escaped again: ["100% & $5"] becomes
    ["100\textbackslash{}% \textbackslash{}& \textbackslash{}$5"], in
    which a literal [%], [&] and [$] remain. *)
Theorem escape_latex_reescapes_backslashes :
  escape_latex (lit "100% & $5") =
    lit "100\textbackslash{}% \textbackslash{}& \textbackslash{}$5" /\
  str_contains (escape_latex (lit "100% & $5")) (lit "%") = true /\
  str_contains (escape_latex (lit "100% & $5")) (lit "&") = true /\
  str_contains (escape_latex (lit "100% & $5")) (lit "$") = true.
Proof. vm_compute. repeat split. Qed.

(** C2.  For every block sequence the emitted document closes every list
    it opens: the lines are the header, the body, the closing of the lists
    still open at the end (secondary first, then primary) and the footer;
    reading the body leaves exactly the open lists of the final state; and
    re-splitting the emitted string at its newlines, every
    [\end{itemize}] line closes an open list and none is left open. *)
Theorem convert_to_latex_closes_lists (structured_content : list block) :
  let '(body, st) := emit_body initial_emitter_state structured_content in
  convert_to_latex_lines structured_content =
    latex_header ++ body ++ close_lists st ++ latex_footer /\
  itemize_depth 0 (latex_header ++ body) = Some (open_lists st) /\
  itemize_depth 0 (split_nl (convert_to_latex structured_content)) = Some 0.
Proof.
  pose proof (emit_body_depth structured_content initial_emitter_state 0) as Hd.
  pose proof (emit_body_lines_ok structured_content initial_emitter_state) as Hok.
  unfold convert_to_latex, convert_to_latex_lines.
  destruct (emit_body initial_emitter_state structured_content) as [body st].
  simpl fst in *; simpl snd in *. rewrite !Nat.add_0_r in Hd.
  split; [reflexivity|].
  assert (Hbody : itemize_depth 0 (latex_header ++ body) = Some (open_lists st)).
  { rewrite itemize_depth_app, latex_header_depth. exact Hd. }
  split; [exact Hbody|].
  rewrite split_nl_join by (unfold latex_header; simpl; discriminate).
  rewrite depth_segments.
  - rewrite app_assoc, itemize_depth_app, Hbody, itemize_depth_app.
    rewrite <- (Nat.add_0_r (open_lists st)), close_lists_depth. reflexivity.
  - rewrite !forallb_app, Hok, close_lists_lines_ok. reflexivity.
Qed.

(** ** The structure classifier *)

Lemma identify_loop_spec (U : str_methods) (lines rest : list pstr) :
  identify_loop U lines rest =
  map (fun line => classify_line U line lines)
    (List.filter nonempty (map strip rest)).
Proof.
  induction rest as [|raw rest IH]; [reflexivity|].
  simpl. destruct (strip raw); simpl; rewrite IH; reflexivity.
Qed.

Lemma identify_loop_context (U : str_methods) (lines lines' rest : list pstr) :
  identify_loop U lines rest = identify_loop U lines' rest.
Proof.
  induction rest as [|raw rest IH]; [reflexivity|].
  simpl. destruct (strip raw); [exact IH|]. rewrite IH. reflexivity.
Qed.

Lemma identify_loop_app (U : str_methods) (lines r1 r2 : list pstr) :
  identify_loop U lines (r1 ++ r2) =
  identify_loop U lines r1 ++ identify_loop U lines r2.
Proof.
  induction r1 as [|raw r1 IH]; [reflexivity|].
  simpl. destruct (strip raw); [exact IH|]. rewrite IH. reflexivity.
Qed.

Lemma split_nl_no_nl (s : pstr) :
  forallb (fun c => negb (N.eqb c c_nl)) s = true -> split_nl s = [s].
Proof.
  intros H. destruct (split_nl_prefix s [] H) as (hd & tl & E1 & E2).
  simpl in E1. inversion E1; subst. rewrite app_nil_r in E2. exact E2.
Qed.

(** C6.  [identify_structure] yields one block per input line that is
    non-empty once stripped, in input order: the blocks are the
    classifications of those stripped lines, so there are as many blocks
    as such lines. *)
Theorem identify_structure_one_block_per_line (U : str_methods) (text : pstr) :
  identify_structure U text =
    map (fun line => classify_line U line (split_nl text))
      (List.filter nonempty (map strip (split_nl text))) /\
  length (identify_structure U text) =
    length (List.filter (fun raw => nonempty (strip raw)) (split_nl text)).
Proof.
  unfold identify_structure. rewrite identify_loop_spec. split; [reflexivity|].
  rewrite length_map. generalize (split_nl text) as ls.
  induction ls as [|raw ls IH]; [reflexivity|].
  simpl. destruct (nonempty (strip raw)); simpl; rewrite IH; reflexivity.
Qed.

(** C7.  Classification is line-local: the kind (and text) given to a
    line is the same whatever the list of surrounding lines passed to
    [is_title]; classifying a text made of two parts joined by a newline
    gives the blocks of the two parts in turn; and a stripped, non-empty
    line without newline classified on its own gives the block it gets
    in any context. *)
Theorem classification_is_line_local (U : str_methods) :
  (forall (line : pstr) (ctx1 ctx2 : list pstr),
      classify_line U line ctx1 = classify_line U line ctx2) /\
  (forall s1 s2 : pstr,
      identify_structure U (s1 ++ c_nl :: s2) =
      identify_structure U s1 ++ identify_structure U s2) /\
  (forall (line : pstr) (ctx : list pstr),
      forallb (fun c => negb (N.eqb c c_nl)) line = true ->
      strip line = line -> line <> [] ->
      identify_structure U line = [classify_line U line ctx]).
Proof.
  split; [reflexivity|]. split.
  - intros s1 s2. unfold identify_structure.
    rewrite split_nl_app_nl, identify_loop_app.
    f_equal; apply identify_loop_context.
  - intros line ctx Hnl Hs Hne. unfold identify_structure.
    rewrite split_nl_no_nl by exact Hnl. simpl. rewrite Hs.
    destruct line as [|c line]; [congruence|]. reflexivity.
Qed.

(** ** The log parser *)

Lemma skipn_cons_nth (A : Type) (l : list A) (i : nat) (x : A) (r : list A) (d : A) :
  skipn i l = x :: r -> nth i l d = x /\ skipn (S i) l = r.
Proof.
  revert l; induction i as [|i IH]; intros l H; destruct l as [|y l];
    simpl in *; try discriminate.
  - inversion H; subst; split; reflexivity.
  - apply IH, H.
Qed.

Lemma parse_loop_spec (lines : list pstr) (i : nat) (rest errs warns : list pstr) :
  skipn i lines = rest ->
  parse_loop lines i rest errs warns =
  (errs ++ map (fun j => join_nl (error_context lines j))
             (List.filter (fun j => is_error_line (nth j lines []))
                (seq i (length rest))),
   warns ++ map strip
              (List.filter (fun l => negb (is_error_line l) && is_warning_line l) rest)).
Proof.
  revert i errs warns; induction rest as [|line rest IH]; intros i errs warns H.
  - simpl. rewrite !app_nil_r. reflexivity.
  - destruct (skipn_cons_nth _ lines i line rest [] H) as [Hnth Hskip].
    cbn [parse_loop length seq List.filter]. rewrite Hnth.
    destruct (is_error_line line) eqn:Ee; simpl negb; cbn [andb].
    + rewrite IH by exact Hskip. simpl. rewrite <- !app_assoc. reflexivity.
    + destruct (is_warning_line line) eqn:Ew.
      * rewrite IH by exact Hskip. simpl. rewrite <- !app_assoc. reflexivity.
      * rewrite IH by exact Hskip. reflexivity.
Qed.

Lemma parse_latex_errors_spec (log_content : pstr) :
  let lines := split_nl log_content in
  parse_latex_errors log_content =
  (map (fun j => join_nl (error_context lines j))
     (List.filter (fun j => is_error_line (nth j lines [])) (seq 0 (length lines))),
   map strip (List.filter (fun l => negb (is_error_line l) && is_warning_line l) lines)).
Proof.
  unfold parse_latex_errors. simpl.
  rewrite parse_loop_spec by reflexivity. reflexivity.
Qed.

Lemma error_context_shape (lines : list pstr) (i : nat) :
  i < length lines ->
  error_context lines i =
    map (fun j => nth j lines []) (seq (i - 2) (Nat.min i 2)) ++
    nth i lines [] ::
    map (fun j => nth j lines []) (seq (S i) (Nat.min 2 (length lines - S i))).
Proof.
  intros Hi. unfold error_context.
  replace (Nat.max 0 (i - 2)) with (i - 2) by lia.
  replace (Nat.min (length lines) (i + 3) - (i - 2))
    with (Nat.min i 2 + (1 + Nat.min 2 (length lines - S i))) by lia.
  rewrite seq_app, map_app. f_equal.
  replace (i - 2 + Nat.min i 2) with i by lia.
  rewrite seq_app, map_app. simpl. rewrite Nat.add_1_r. reflexivity.
Qed.

(** C5 (amended).  For a fatal line at index [i] of the log, the parser
    records the block [lines[max(0,i-2) : min(len,i+3)]] joined by
    newlines: the [min i 2] lines before it (fewer than two when it is one
    of the first two lines of the log), the line itself, and the
    [min 2 (len - i - 1)] lines after it. *)
Theorem error_block_context (log_content : pstr) (i : nat) :
  let lines := split_nl log_content in
  i < length lines -> is_error_line (nth i lines []) = true ->
  In (join_nl (error_context lines i)) (fst (parse_latex_errors log_content)) /\
  exists lead trail,
    error_context lines i = lead ++ nth i lines [] :: trail /\
    lead = map (fun j => nth j lines []) (seq (i - 2) (Nat.min i 2)) /\
    trail = map (fun j => nth j lines []) (seq (S i) (Nat.min 2 (length lines - S i))) /\
    length lead = Nat.min i 2 /\
    length trail = Nat.min 2 (length lines - S i).
Proof.
  intros lines Hi He. split.
  - rewrite parse_latex_errors_spec. simpl fst.
    apply (in_map (fun j => join_nl (error_context lines j))), filter_In.
    split; [apply in_seq; unfold lines in *; lia|exact He].
  - eexists _, _. split; [apply error_context_shape, Hi|].
    rewrite !length_map, !length_seq. repeat split.
Qed.

(** C5 fails as stated: a fatal first line of the log has no leading
    context at all. *)
Lemma error_block_leading_context_counterexample :
  ~ (forall (log_content : pstr) (i : nat),
       let lines := split_nl log_content in
       i < length lines -> is_error_line (nth i lines []) = true ->
       exists lead trail,
         error_context lines i = lead ++ nth i lines [] :: trail /\
         length lead = 2).
Proof.
  intros H.
  destruct (H (lit "! Undefined control sequence.") 0) as (lead & trail & E & L).
  - vm_compute. lia.
  - reflexivity.
  - vm_compute in E. destruct lead as [|x lead]; [discriminate L|].
    inversion E as [[Hx Hr]]. destruct lead; discriminate Hr.
Qed.

(** C9.  A log line is counted as an error or as a warning, never both:
    the warnings are exactly the stripped lines that are not error lines
    and carry a warning marker, and every error line contributes its
    error block. *)
Theorem parse_latex_errors_error_precedence (log_content : pstr) :
  let lines := split_nl log_content in
  snd (parse_latex_errors log_content) =
    map strip (List.filter (fun l => negb (is_error_line l) && is_warning_line l) lines) /\
  fst (parse_latex_errors log_content) =
    map (fun j => join_nl (error_context lines j))
      (List.filter (fun j => is_error_line (nth j lines [])) (seq 0 (length lines))).
Proof.
  intros lines. rewrite parse_latex_errors_spec. split; reflexivity.
Qed.

(** ** Substrings *)

Lemma is_prefix_app (x s b : pstr) :
  is_prefix x s = true -> is_prefix x (s ++ b) = true.
Proof.
  revert s; induction x as [|a x IH]; intros s H; [reflexivity|].
  destruct s as [|c s]; [discriminate|].
  simpl in *. apply andb_prop in H as [H1 H2]. rewrite H1. apply IH, H2.
Qed.

Lemma is_prefix_refl (x : pstr) : is_prefix x x = true.
Proof. induction x as [|a x IH]; simpl; [reflexivity|]. rewrite N.eqb_refl. exact IH. Qed.

Lemma str_contains_nil (s : pstr) : str_contains s [] = true.
Proof. destruct s; reflexivity. Qed.

Lemma str_contains_refl (x : pstr) : str_contains x x = true.
Proof. destruct x; simpl; [reflexivity|]. rewrite N.eqb_refl, is_prefix_refl. reflexivity. Qed.

Lemma str_contains_app_r (a s x : pstr) :
  str_contains s x = true -> str_contains (a ++ s) x = true.
Proof.
  induction a as [|c a IH]; intros H; [exact H|].
  simpl. rewrite IH by exact H. apply orb_true_r.
Qed.

Lemma str_contains_app_l (s b x : pstr) :
  str_contains s x = true -> str_contains (s ++ b) x = true.
Proof.
  induction s as [|c s IH]; intros H.
  - destruct x; [apply str_contains_nil|discriminate].
  - simpl in *. apply orb_prop in H as [H|H].
    + change (c :: s ++ b) with ((c :: s) ++ b).
      rewrite is_prefix_app by exact H. reflexivity.
    + rewrite IH by exact H. apply orb_true_r.
Qed.

Lemma str_contains_join_with (sep : pstr) (xs : list pstr) (x y : pstr) :
  In y xs -> str_contains y x = true -> str_contains (join_with sep xs) x = true.
Proof.
  induction xs as [|z xs IH]; intros Hin H; [destruct Hin|].
  destruct Hin as [<-|Hin].
  - destruct xs; [exact H|]. simpl. apply str_contains_app_l, H.
  - destruct xs as [|z' xs]; [destruct Hin|].
    change (join_with sep (z :: z' :: xs)) with (z ++ sep ++ join_with sep (z' :: xs)).
    apply str_contains_app_r, str_contains_app_r, IH; assumption.
Qed.

Lemma join_nl_join_with (xs : list pstr) : join_nl xs = join_with [c_nl] xs.
Proof.
  induction xs as [|x xs IH]; [reflexivity|].
  destruct xs as [|y xs]; [reflexivity|].
  change (join_nl (x :: y :: xs)) with (x ++ c_nl :: join_nl (y :: xs)).
  rewrite IH. reflexivity.
Qed.

(** A log line starting with ["! Undefined control sequence"] gives an
    error block containing that text. *)
Lemma undefined_control_sequence_block (pre post : pstr) :
  (pre = [] \/ exists pre', pre = pre' ++ [c_nl]) ->
  let errors := fst (parse_latex_errors (pre ++ lit "! Undefined control sequence" ++ post)) in
  errors <> [] /\
  Exists (fun e => str_contains e (lit "! Undefined control sequence") = true) errors.
Proof.
  intros Hpre errors.
  set (X := lit "! Undefined control sequence").
  assert (HX : forallb (fun c => negb (N.eqb c c_nl)) X = true) by reflexivity.
  destruct (split_nl_prefix X post HX) as (hd & tl & _ & Hsplit).
  set (log_content := pre ++ X ++ post).
  assert (Hline : exists i, i < length (split_nl log_content) /\
                            nth i (split_nl log_content) [] = X ++ hd).
  { destruct Hpre as [->|[pre' ->]].
    - exists 0. unfold log_content. rewrite app_nil_l, Hsplit.
      split; [simpl; lia|reflexivity].
    - exists (length (split_nl pre')). unfold log_content.
      rewrite <- app_assoc. change ([c_nl] ++ X ++ post) with (c_nl :: X ++ post).
      rewrite split_nl_app_nl, Hsplit.
      rewrite length_app, nth_middle. simpl. split; [lia|reflexivity]. }
  destruct Hline as (i & Hi & Hnth).
  assert (He : is_error_line (nth i (split_nl log_content) []) = true).
  { rewrite Hnth. reflexivity. }
  destruct (error_block_context log_content i Hi He) as [Hin (lead & trail & Hctx & _)].
  change (In (join_nl (error_context (split_nl log_content) i)) errors) in Hin.
  assert (Hc : str_contains (join_nl (error_context (split_nl log_content) i)) X = true).
  { rewrite Hctx, join_nl_join_with. rewrite Hnth.
    apply (str_contains_join_with _ _ _ (X ++ hd)).
    - apply in_or_app. right. left. reflexivity.
    - apply str_contains_app_l, str_contains_refl. }
  split.
  - intros E. rewrite E in Hin. destruct Hin.
  - apply List.Exists_exists. eexists; split; [exact Hin|exact Hc].
Qed.

(** ** The pass loop *)

Lemma pass_loop_cons (engine_name : pstr) (engine : engine_oracle) (log_file : path)
    (max_passes : Z) (p : nat) (ps : list nat) (last_log : option pstr) (w : world)
    (r : completed_process) (fs' : gmap path node) :
  engine p (w_fs w) = (Completed r, fs') ->
  pass_loop engine_name engine log_file max_passes (p :: ps) last_log w =
  (let log_content := log_of fs' log_file in
   let w' := {| w_fs := fs'; w_passes := w_passes w ++ [p] |} in
   if negb (Z.eqb (returncode r) 0) then
     (Raise (Exception (compilation_failed_msg (fst (parse_latex_errors log_content))
                          (proc_stderr r) log_content)), w')
   else if Z.ltb (Z.of_nat p) max_passes && needs_multiple_passes log_content
   then pass_loop engine_name engine log_file max_passes ps (Some log_content) w'
   else (Ok (Some log_content), w')).
Proof.
  intros H. cbn [pass_loop]. unfold bindM at 1, run_latex_command. rewrite H.
  cbn zeta. unfold bindM, read_log, log_of. cbn [w_fs].
  destruct (negb _); [reflexivity|]. destruct (andb _ _); reflexivity.
Qed.

Lemma compilation_failed_msg_contains (errors : list pstr) (stderr log_content : pstr) :
  let msg := compilation_failed_msg errors stderr log_content in
  Forall (fun e => str_contains msg e = true) errors /\
  str_contains msg stderr = true.
Proof.
  intros msg. split.
  - apply List.Forall_forall. intros e Hin. unfold msg, compilation_failed_msg.
    apply str_contains_app_r, str_contains_app_r, str_contains_app_l.
    destruct errors as [|e0 errors]; [destruct Hin|].
    apply str_contains_app_r, str_contains_app_r, str_contains_app_l.
    apply (str_contains_join_with _ _ _ e Hin), str_contains_refl.
  - destruct stderr as [|c stderr]; [apply str_contains_nil|].
    unfold msg, compilation_failed_msg.
    apply str_contains_app_r, str_contains_app_r, str_contains_app_r.
    apply str_contains_app_l, str_contains_app_r, str_contains_app_r.
    apply str_contains_app_l, str_contains_refl.
Qed.

(** C3.  When a pass exits with a nonzero code, the loop raises at once,
    after that pass: the exception is the compilation failure whose
    message is built from the error blocks parsed from that pass's log
    and from the engine's standard error, each of which it contains; no
    later pass is handed to the engine.  A log in which a line starts
    with ["! Undefined control sequence"] yields a non-empty list of
    error blocks, one of which contains that text. *)
Theorem nonzero_exit_aborts (engine_name : pstr) (engine : engine_oracle)
    (log_file : path) (max_passes : Z) (p : nat) (ps : list nat)
    (last_log : option pstr) (w : world) (r : completed_process)
    (fs' : gmap path node) :
  engine p (w_fs w) = (Completed r, fs') ->
  returncode r <> 0%Z ->
  let log_content := log_of fs' log_file in
  let errors := fst (parse_latex_errors log_content) in
  let msg := compilation_failed_msg errors (proc_stderr r) log_content in
  pass_loop engine_name engine log_file max_passes (p :: ps) last_log w =
    (Raise (Exception msg), {| w_fs := fs'; w_passes := w_passes w ++ [p] |}) /\
  Forall (fun e => str_contains msg e = true) errors /\
  str_contains msg (proc_stderr r) = true /\
  (forall pre post : pstr,
     (pre = [] \/ exists pre', pre = pre' ++ [c_nl]) ->
     log_content = pre ++ lit "! Undefined control sequence" ++ post ->
     errors <> [] /\
     Exists (fun e => str_contains e (lit "! Undefined control sequence") = true) errors).
Proof.
  intros Heng Hrc log_content errors msg.
  destruct (compilation_failed_msg_contains errors (proc_stderr r) log_content) as [H1 H2].
  split; [|split; [exact H1|split; [exact H2|]]].
  - rewrite (pass_loop_cons _ _ _ _ _ _ _ _ _ _ Heng).
    apply Z.eqb_neq in Hrc. rewrite Hrc. reflexivity.
  - intros pre post Hpre Hlog. unfold errors. rewrite Hlog.
    apply undefined_control_sequence_block, Hpre.
Qed.

Lemma pass_numbers_ge2 (max_passes : Z) :
  (2 <= max_passes)%Z ->
  pass_numbers max_passes = 1 :: 2 :: seq 3 (Z.to_nat max_passes - 2).
Proof.
  intros H. unfold pass_numbers.
  assert (E : Z.to_nat max_passes = S (S (Z.to_nat max_passes - 2))) by lia.
  rewrite E at 1. reflexivity.
Qed.

Lemma needs_multiple_passes_rerun (log_content : pstr) :
  str_contains log_content (lit "Rerun to get cross-references right") = true ->
  needs_multiple_passes log_content = true.
Proof. intros H. unfold needs_multiple_passes. simpl. rewrite H. reflexivity. Qed.

(** C4.  After a pass that exits with code 0 the loop goes on to the
    next pass exactly when the log holds a rerun indicator and the pass
    number is below [max_passes]; otherwise it stops without error (also
    when [max_passes] is reached).  In particular, when pass 1 logs
    ["Rerun to get cross-references right"] and pass 2 logs no rerun
    indicator, both exiting with 0, with [max_passes >= 2] and the PDF
    produced, exactly passes 1 and 2 are run and the PDF is copied to
    the output path and returned. *)
Theorem zero_exit_continues_iff_rerun :
  (forall (engine_name : pstr) (engine : engine_oracle) (log_file : path)
          (max_passes : Z) (p : nat) (ps : list nat) (last_log : option pstr)
          (w : world) (r : completed_process) (fs' : gmap path node),
     engine p (w_fs w) = (Completed r, fs') ->
     returncode r = 0%Z ->
     let log_content := log_of fs' log_file in
     let w' := {| w_fs := fs'; w_passes := w_passes w ++ [p] |} in
     pass_loop engine_name engine log_file max_passes (p :: ps) last_log w =
       if Z.ltb (Z.of_nat p) max_passes && needs_multiple_passes log_content
       then pass_loop engine_name engine log_file max_passes ps (Some log_content) w'
       else (Ok (Some log_content), w')) /\
  (forall (engine_name : pstr) (verbose : bool) (engine : engine_oracle)
          (log_file pdf_file output_pdf : path) (max_passes : Z) (w : world)
          (r1 r2 : completed_process) (fs1 fs2 : gmap path node) (pdf : pstr),
     (2 <= max_passes)%Z ->
     engine 1 (w_fs w) = (Completed r1, fs1) -> returncode r1 = 0%Z ->
     str_contains (log_of fs1 log_file) (lit "Rerun to get cross-references right") = true ->
     engine 2 fs1 = (Completed r2, fs2) -> returncode r2 = 0%Z ->
     needs_multiple_passes (log_of fs2 log_file) = false ->
     fs2 !! pdf_file = Some (File pdf) ->
     fs2 !! output_pdf = None -> parent_is_dir fs2 output_pdf = true ->
     compile_in_scratch engine_name verbose engine log_file pdf_file output_pdf
       max_passes w =
     (Ok output_pdf,
      {| w_fs := <[output_pdf := File pdf]> fs2; w_passes := w_passes w ++ [1; 2] |})).
Proof.
  split.
  - intros engine_name engine log_file max_passes p ps last_log w r fs' Heng Hrc.
    rewrite (pass_loop_cons _ _ _ _ _ _ _ _ _ _ Heng), Hrc. reflexivity.
  - intros engine_name verbose engine log_file pdf_file output_pdf max_passes w
      r1 r2 fs1 fs2 pdf Hmax He1 Hrc1 Hlog1 He2 Hrc2 Hlog2 Hpdf Hout Hpar.
    unfold compile_in_scratch. rewrite pass_numbers_ge2 by exact Hmax.
    unfold bindM at 1.
    rewrite (pass_loop_cons _ _ _ _ _ _ _ _ _ _ He1), Hrc1.
    cbn zeta. rewrite (needs_multiple_passes_rerun _ Hlog1).
    rewrite (proj2 (Z.ltb_lt (Z.of_nat 1) max_passes)) by lia.
    cbn [negb Z.eqb andb].
    rewrite (pass_loop_cons _ _ _ _ 2 _ _
               {| w_fs := fs1; w_passes := w_passes w ++ [1] |} _ _ He2), Hrc2.
    cbn zeta.
    rewrite Hlog2, andb_false_r. cbn [negb Z.eqb].
    unfold bindM, path_exists, copy2. cbn [w_fs w_passes]. rewrite Hpdf.
    cbn [negb]. cbn [w_fs]. rewrite Hpdf. destruct (fs2 !! output_pdf) eqn:E; [congruence|].
    cbn iota. rewrite E, Hpar.
    rewrite <- app_assoc. destruct verbose; reflexivity.
Qed.

(** ** The scratch directory *)

(** C8.  Whatever the outcome of [convert_to_pdf] (a returned path, a
    failed compilation, a timeout, a missing PDF, a failure to start the
    engine or any other exception), nothing lies under the scratch
    directory afterwards, provided the name [tempfile] picks was free
    before the call. *)
Theorem scratch_removed_on_every_path (U : str_methods) (engine_name : pstr)
    (verbose : bool) (engine : engine_oracle) (tmp tex_file : path)
    (output_pdf : option path) (max_passes : Z) (w : world) :
  scratch_absent tmp (w_fs w) ->
  scratch_absent tmp
    (w_fs (snd (convert_to_pdf U engine_name verbose engine tmp tex_file output_pdf
                  max_passes w))).
Proof.
  intros Hfresh. unfold convert_to_pdf, bindM at 1, path_exists at 1.
  destruct (negb _); [exact Hfresh|].
  destruct (negb _); [exact Hfresh|].
  unfold with_temporary_directory.
  match goal with |- context [let '(r, w') := ?b in _] => destruct b as [r w'] end.
  cbn [snd w_fs set_fs]. unfold rmtree, scratch_absent.
  intros q x Hq. apply map_lookup_filter_Some in Hq as [_ Hq]. exact Hq.
Qed.

(** ** Which steps raise [ValueError] *)

Lemma nve_ret {A} (a : A) : no_value_error (retM a).
Proof. intros w msg. discriminate. Qed.

Lemma nve_raise {A} (e : py_exc) :
  (forall msg, e <> ValueError msg) -> no_value_error (A:=A) (raiseM e).
Proof. intros H w msg Heq. apply (H msg). cbn in Heq. congruence. Qed.

Lemma nve_bind {A B} (m : M A) (k : A -> M B) :
  no_value_error m -> (forall a, no_value_error (k a)) -> no_value_error (bindM m k).
Proof.
  intros Hm Hk w msg. unfold bindM. specialize (Hm w msg).
  destruct (m w) as [[a|e] w']; [apply Hk|].
  cbn [fst] in *. intros Heq. injection Heq as ->. apply Hm. reflexivity.
Qed.

Lemma nve_copy2 (src dst : path) : no_value_error (copy2 src dst).
Proof.
  intros w msg. unfold copy2.
  repeat (case_match; cbn [fst]; try discriminate).
Qed.

Lemma nve_try_ignore (m : M unit) : no_value_error (try_ignore m).
Proof. intros w msg. unfold try_ignore. destruct (m w). discriminate. Qed.

Lemma nve_iterdir (d : path) : no_value_error (iterdir d).
Proof. intros w msg. unfold iterdir. case_match; discriminate. Qed.

Lemma nve_is_file (p : path) : no_value_error (is_file p).
Proof. intros w msg. discriminate. Qed.

Lemma nve_path_exists (p : path) : no_value_error (path_exists p).
Proof. intros w msg. discriminate. Qed.

Lemma nve_copy_each (U : str_methods) (dest_dir : path) (files : list path) :
  no_value_error (copy_each U dest_dir files).
Proof.
  induction files as [|f files IH]; cbn [copy_each]; [apply nve_ret|].
  apply nve_bind; [apply nve_is_file|intros isf].
  apply nve_bind; [|intros _; exact IH].
  destruct (_ && _); [apply nve_try_ignore|apply nve_ret].
Qed.

Lemma nve_run_latex_command (engine_name : pstr) (engine : engine_oracle) (p : nat) :
  no_value_error (run_latex_command engine_name engine p).
Proof.
  intros w msg. unfold run_latex_command.
  destruct (engine p (w_fs w)) as [[r| |e] fs']; discriminate.
Qed.

Lemma nve_pass_loop (engine_name : pstr) (engine : engine_oracle) (log_file : path)
    (max_passes : Z) (ps : list nat) (last_log : option pstr) :
  no_value_error (pass_loop engine_name engine log_file max_passes ps last_log).
Proof.
  revert last_log. induction ps as [|p ps IH]; intros last_log; cbn [pass_loop];
    [apply nve_ret|].
  apply nve_bind; [apply nve_run_latex_command|intros r].
  apply nve_bind; [intros w msg; discriminate|intros log_content].
  destruct (negb _); [apply nve_raise; discriminate|].
  destruct (_ && _); [apply IH|apply nve_ret].
Qed.

Lemma nve_compile_in_scratch (engine_name : pstr) (verbose : bool)
    (engine : engine_oracle) (log_file pdf_file output_pdf : path) (max_passes : Z) :
  no_value_error (compile_in_scratch engine_name verbose engine log_file pdf_file
                    output_pdf max_passes).
Proof.
  unfold compile_in_scratch.
  apply nve_bind; [apply nve_pass_loop|intros last_log].
  apply nve_bind; [apply nve_path_exists|intros pdf_ok].
  destruct (negb pdf_ok); [apply nve_raise; discriminate|].
  apply nve_bind; [apply nve_copy2|intros _].
  apply nve_bind; [|intros _; apply nve_ret].
  destruct verbose, last_log; try apply nve_ret. apply nve_raise; discriminate.
Qed.

Lemma nve_with_temporary_directory {A} (tmp : path) (body : path -> M A) :
  no_value_error (body tmp) -> no_value_error (with_temporary_directory tmp body).
Proof.
  intros Hb w msg. unfold with_temporary_directory.
  specialize (Hb (set_fs (<[tmp := Dir]> (w_fs w)) w) msg).
  destruct (body tmp _) as [r w']. exact Hb.
Qed.

(** C10.  For an input file that exists, [convert_to_pdf] raises the
    invalid-extension [ValueError] exactly when the lower-cased suffix of
    the file name is not [".tex"]; no later step raises a [ValueError].
    So a name ending in [".TEX"] or [".Tex"] is accepted. *)
Theorem extension_check_case_insensitive (U : str_methods) (engine_name : pstr)
    (verbose : bool) (engine : engine_oracle) (tmp tex_file : path)
    (output_pdf : option path) (max_passes : Z) (w : world) :
  w_fs w !! tex_file <> None ->
  (exists msg w', convert_to_pdf U engine_name verbose engine tmp tex_file output_pdf
                    max_passes w = (Raise (ValueError msg), w')) <->
  str_lower U (path_suffix tex_file) <> lit ".tex".
Proof.
  intros Hex. unfold convert_to_pdf, bindM at 1, path_exists at 1.
  destruct (w_fs w !! tex_file) eqn:E; [|congruence]. cbn [negb].
  destruct (bool_decide (str_lower U (path_suffix tex_file) = lit ".tex")) eqn:B;
    cbn [negb].
  - apply bool_decide_eq_true in B. split; [|tauto].
    intros (msg & w' & Hrun). exfalso.
    refine (nve_with_temporary_directory tmp _ _ w msg _); [|rewrite Hrun; reflexivity].
    apply nve_bind; [apply nve_copy2|intros _].
    apply nve_bind; [unfold copy_additional_files;
                     apply nve_bind; [apply nve_iterdir|intros; apply nve_copy_each]|].
    intros _. apply nve_compile_in_scratch.
  - apply bool_decide_eq_false in B. split; [intros _; exact B|].
    intros _. exists msg_bad_extension, w. reflexivity.
Qed.

(** ** Runs on the concrete scene *)

Lemma nonzero_exit_aborts_witness :
  ex_failing_engine 1 (w_fs ex_world) =
    (Completed ex_failed, <[ex_log_file := File ex_bad_log]> ex_fs) /\
  returncode ex_failed <> 0%Z /\
  fst (pass_loop (lit "pdflatex") ex_failing_engine ex_log_file 3%Z [1; 2; 3] None ex_world) =
    Raise (Exception (compilation_failed_msg (fst (parse_latex_errors ex_bad_log))
                        (lit "exit 1") ex_bad_log)).
Proof.
  split; [reflexivity|]. split; [discriminate|].
  destruct (nonzero_exit_aborts (lit "pdflatex") ex_failing_engine ex_log_file 3%Z 1 [2; 3]
              None ex_world ex_failed (<[ex_log_file := File ex_bad_log]> ex_fs)
              eq_refl ltac:(discriminate)) as [H _].
  rewrite H. reflexivity.
Defined.

Lemma zero_exit_continues_iff_rerun_witness :
  compile_in_scratch (lit "pdflatex") false ex_two_pass_engine ex_log_file ex_pdf_file
    ex_out_pdf 3%Z ex_world =
  (Ok ex_out_pdf,
   {| w_fs := <[ex_out_pdf := File (lit "%PDF")]> ex_fs2; w_passes := [] ++ [1; 2] |}).
Proof.
  apply (proj2 zero_exit_continues_iff_rerun (lit "pdflatex") false ex_two_pass_engine
           ex_log_file ex_pdf_file ex_out_pdf 3%Z ex_world ex_ok ex_ok ex_fs1 ex_fs2
           (lit "%PDF")); try lia; vm_compute; reflexivity.
Defined.

Lemma error_block_context_witness :
  2 < length (split_nl ex_ctx_log) /\
  is_error_line (nth 2 (split_nl ex_ctx_log) []) = true /\
  In (join_nl (error_context (split_nl ex_ctx_log) 2)) (fst (parse_latex_errors ex_ctx_log)).
Proof.
  assert (H1 : 2 < length (split_nl ex_ctx_log)) by (vm_compute; lia).
  assert (H2 : is_error_line (nth 2 (split_nl ex_ctx_log) []) = true)
    by (vm_compute; reflexivity).
  split; [exact H1|]. split; [exact H2|].
  exact (proj1 (error_block_context ex_ctx_log 2 H1 H2)).
Defined.

Lemma classification_is_line_local_witness :
  identify_structure ascii_methods (lit "Overview") =
    [classify_line ascii_methods (lit "Overview") [lit "Intro"; lit "Overview"]].
Proof.
  apply (proj2 (proj2 (classification_is_line_local ascii_methods)));
    vm_compute; [reflexivity|reflexivity|discriminate].
Defined.

Lemma scratch_removed_on_every_path_witness :
  scratch_absent ex_tmp (w_fs ex_world) /\
  scratch_absent ex_tmp
    (w_fs (snd (convert_to_pdf ascii_methods (lit "pdflatex") false ex_failing_engine
                  ex_tmp ex_tex None 3%Z ex_world))).
Proof.
  assert (H : scratch_absent ex_tmp (w_fs ex_world))
    by (refine (bool_decide_unpack _ _); vm_compute; reflexivity).
  split; [exact H|].
  exact (scratch_removed_on_every_path ascii_methods (lit "pdflatex") false
           ex_failing_engine ex_tmp ex_tex None 3%Z ex_world H).
Defined.

Lemma extension_check_case_insensitive_witness :
  w_fs ex_world !! ex_TEX <> None /\
  ~ (exists msg w', convert_to_pdf ascii_methods (lit "pdflatex") false ex_two_pass_engine
                      ex_tmp ex_TEX None 3%Z ex_world = (Raise (ValueError msg), w')).
Proof.
  assert (H : w_fs ex_world !! ex_TEX <> None) by (vm_compute; discriminate).
  split; [exact H|]. intros Hv.
  apply (extension_check_case_insensitive ascii_methods (lit "pdflatex") false
           ex_two_pass_engine ex_tmp ex_TEX None 3%Z ex_world H) in Hv.
  apply Hv. vm_compute. reflexivity.
Defined.

(* ------------------------------------------------------------------ *)
(** * Further properties of the code *)

Lemma str_replace_app (c : pchar) (r x y : pstr) :
  str_replace c r (x ++ y) = str_replace c r x ++ str_replace c r y.
Proof. unfold str_replace. apply flat_map_app. Qed.

Lemma escape_table_app (tbl : list (pchar * pstr)) (x y : pstr) :
  fold_left (fun t '(ch, replacement) => str_replace ch replacement t) tbl (x ++ y) =
  fold_left (fun t '(ch, replacement) => str_replace ch replacement t) tbl x ++
  fold_left (fun t '(ch, replacement) => str_replace ch replacement t) tbl y.
Proof.
  revert x y. induction tbl as [|[ch r] tbl IH]; intros x y; [reflexivity|].
  cbn [fold_left]. rewrite str_replace_app. apply IH.
Qed.

Lemma escape_table_other (tbl : list (pchar * pstr)) (c : pchar) :
  ~ In c (map fst tbl) ->
  fold_left (fun t '(ch, replacement) => str_replace ch replacement t) tbl [c] = [c].
Proof.
  induction tbl as [|[ch r] tbl IH]; intros H; [reflexivity|].
  cbn [fold_left]. simpl in H.
  assert (E : str_replace ch r [c] = [c]).
  { unfold str_replace. simpl. destruct (N.eqb_spec c ch); [subst; tauto|reflexivity]. }
  rewrite E. apply IH. tauto.
Qed.

Lemma escape_latex_app (x y : pstr) :
  escape_latex (x ++ y) = escape_latex x ++ escape_latex y.
Proof. apply escape_table_app. Qed.

Lemma escape_latex_chars (s : pstr) :
  escape_latex s = flat_map (fun c => escape_latex [c]) s.
Proof.
  induction s as [|c s IH]; [reflexivity|].
  change (c :: s) with ([c] ++ s). rewrite escape_latex_app, IH. reflexivity.
Qed.

(** X1. [escape_latex] works character by character: escaping a
    concatenation is the concatenation of the escaped parts, and a
    character that is not a key of the table is kept as it is. *)
Theorem escape_latex_charwise (x y : pstr) (c : pchar) :
  escape_latex (x ++ y) = escape_latex x ++ escape_latex y /\
  (~ In c (map fst latex_special_chars) -> escape_latex [c] = [c]).
Proof.
  split; [apply escape_latex_app|]. apply escape_table_other.
Qed.

Lemma not_in_existsb (x : pchar) (l : pstr) : existsb (N.eqb x) l = false -> ~ In x l.
Proof.
  induction l as [|a l IH]; simpl; [tauto|].
  intros H [->|Hin]; apply orb_false_iff in H as [H1 H2].
  - rewrite N.eqb_refl in H1. discriminate.
  - exact (IH H2 Hin).
Qed.

Lemma escape_char_cases (c : N) :
  In c (map fst latex_special_chars) \/ escape_latex [c] = [c].
Proof.
  destruct (in_dec N.eq_dec c (map fst latex_special_chars)) as [H|H]; [left; exact H|].
  right. apply escape_table_other, H.
Qed.

(** X2. the output of [escape_latex] never contains a caret [^] or a
    tilde [~]: both are replaced by commands whose own text has neither. *)
Theorem escape_latex_no_caret_tilde (s : pstr) :
  ~ In 94%N (escape_latex s) /\ ~ In 126%N (escape_latex s).
Proof.
  rewrite escape_latex_chars.
  split; intros Hin; apply in_flat_map in Hin as (c & _ & Hc); cbv beta in Hc;
  (destruct (escape_char_cases c) as [Hk|E];
   [ simpl in Hk; repeat destruct Hk as [<-|Hk]; try contradiction;
     revert Hc; apply not_in_existsb; vm_compute; reflexivity
   | rewrite E in Hc; destruct Hc as [Hc|[]]; subst c; vm_compute in E; discriminate ]).
Qed.

(** ** strip *)

Lemma lstrip_no_lead (s : pstr) : no_lead (lstrip s) = true.
Proof.
  induction s as [|c s IH]; [reflexivity|]. simpl.
  destruct (py_isspace c) eqn:E; [exact IH|]. simpl. rewrite E. reflexivity.
Qed.

Lemma no_lead_lstrip (s : pstr) : no_lead s = true -> lstrip s = s.
Proof.
  destruct s as [|c s]; [reflexivity|]. simpl. intros H.
  apply negb_true_iff in H. rewrite H. reflexivity.
Qed.

Lemma lstrip_suffix (s : pstr) : exists p, s = p ++ lstrip s.
Proof.
  induction s as [|c s [p IH]]; [exists []; reflexivity|]. simpl.
  destruct (py_isspace c); [exists (c :: p); simpl; rewrite <- IH; reflexivity|].
  exists []; reflexivity.
Qed.

Lemma lstrip_length (s : pstr) : length (lstrip s) <= length s.
Proof.
  induction s as [|c s IH]; [reflexivity|]. simpl.
  destruct (py_isspace c); simpl; lia.
Qed.

Lemma strip_idem (s : pstr) : strip (strip s) = strip s.
Proof.
  unfold strip.
  set (a := lstrip s). set (b := lstrip (rev a)).
  assert (Ha : no_lead a = true) by apply lstrip_no_lead.
  assert (Hb : no_lead b = true) by apply lstrip_no_lead.
  assert (Hrb : lstrip (rev b) = rev b).
  { apply no_lead_lstrip.
    destruct (lstrip_suffix (rev a)) as [p Hp]. fold b in Hp.
    assert (Ea : a = rev b ++ rev p).
    { rewrite <- (List.rev_involutive a), Hp, rev_app_distr. reflexivity. }
    destruct (rev b) as [|c r]; [reflexivity|]. rewrite Ea in Ha. exact Ha. }
  rewrite Hrb, List.rev_involutive, (no_lead_lstrip b Hb). reflexivity.
Qed.

Lemma strip_length (s : pstr) : length (strip s) <= length (lstrip s).
Proof.
  unfold strip. rewrite length_rev.
  pose proof (lstrip_length (rev (lstrip s))). rewrite length_rev in H. exact H.
Qed.

(** A stripped line does not start with white space. *)
Lemma stripped_head (c : pchar) (l : pstr) :
  strip (c :: l) = c :: l -> py_isspace c = false.
Proof.
  intros H. destruct (py_isspace c) eqn:E; [|reflexivity]. exfalso.
  pose proof (strip_length (c :: l)) as L. rewrite H in L. simpl in L. rewrite E in L.
  pose proof (lstrip_length l). simpl in L. lia.
Qed.

(** ** The classifier *)

Lemma clean_bullet_text_stripped (line : pstr) :
  strip (clean_bullet_text line) = clean_bullet_text line.
Proof. unfold clean_bullet_text. apply strip_idem. Qed.

(** X3. every block [identify_structure] returns carries a text without
    leading or trailing whitespace, and only a bullet block can carry an
    empty text (a line that is a bare bullet glyph). *)
Theorem identify_structure_block_texts (U : str_methods) (text : pstr) :
  Forall (fun b => strip (snd b) = snd b /\
                   (snd b = [] -> fst b = CBullet1 \/ fst b = CBullet2))
    (identify_structure U text).
Proof.
  unfold identify_structure. rewrite identify_loop_spec.
  apply List.Forall_forall. intros b Hb.
  apply in_map_iff in Hb as (line & <- & Hl).
  apply filter_In in Hl as [Hl Hne].
  apply in_map_iff in Hl as (raw & <- & _).
  unfold classify_line.
  destruct (is_title U (strip raw) (split_nl text));
    [|destruct (is_section_heading U (strip raw));
      [|destruct (is_subsection_heading (strip raw));
        [|destruct (is_primary_bullet (strip raw));
          [|destruct (is_secondary_bullet (strip raw))]]]];
    cbn [fst snd]; split;
    first [ apply strip_idem | apply clean_bullet_text_stripped
          | intros E; rewrite E in Hne; discriminate
          | intros _; tauto ].
Qed.

Lemma is_prefix_head (a c : pchar) (x l : pstr) :
  a <> c -> is_prefix (a :: x) (c :: l) = false.
Proof. intros H. cbn [is_prefix]. apply N.eqb_neq in H. rewrite H. reflexivity. Qed.

(** X4. on a line without surrounding whitespace (every line
    [identify_structure] classifies), [is_secondary_bullet] holds exactly
    when the line starts with [○]: its two indented alternatives never
    apply there. *)
Theorem secondary_bullet_on_stripped_line (line : pstr) :
  strip line = line ->
  is_secondary_bullet line = startswith line [c_white_circle].
Proof.
  intros H. destruct line as [|c l]; [reflexivity|].
  apply stripped_head in H.
  assert (E : 32%N <> c) by (intros <-; discriminate H).
  unfold is_secondary_bullet, startswith.
  change (lit "  " ++ [c_white_circle]) with (32%N :: 32%N :: [c_white_circle]).
  change (lit "    " ++ [c_white_circle]) with (32%N :: 32%N :: 32%N :: 32%N :: [c_white_circle]).
  rewrite !(is_prefix_head 32%N c) by exact E. rewrite !orb_false_r. reflexivity.
Qed.

(** ** Stripping the text *)

Lemma identify_structure_lines (U : str_methods) (text : pstr) :
  identify_structure U text = map (fun line => classify_line U line []) (stripped_lines text).
Proof. unfold identify_structure. rewrite identify_loop_spec. reflexivity. Qed.

Lemma stripped_lines_app_nl (x y : pstr) :
  stripped_lines (x ++ c_nl :: y) = stripped_lines x ++ stripped_lines y.
Proof.
  unfold stripped_lines. rewrite split_nl_app_nl, map_app. apply List.filter_app.
Qed.

Lemma stripped_lines_nil : stripped_lines [] = [].
Proof. reflexivity. Qed.

Lemma stripped_lines_cons_space (c : pchar) (s : pstr) :
  py_isspace c = true -> stripped_lines (c :: s) = stripped_lines s.
Proof.
  intros H. unfold stripped_lines. cbn [split_nl].
  destruct (N.eqb_spec c c_nl) as [->|Hc]; [reflexivity|].
  destruct (split_nl s) as [|l ls] eqn:E; [exfalso; exact (split_nl_nonempty s E)|].
  cbn [map]. unfold strip at 1. cbn [lstrip]. rewrite H. reflexivity.
Qed.

Lemma split_nl_snoc (s : pstr) (c : pchar) :
  c <> c_nl ->
  exists init l, split_nl s = init ++ [l] /\ split_nl (s ++ [c]) = init ++ [l ++ [c]].
Proof.
  intros Hc. induction s as [|d s IH].
  - exists [], []. cbn. apply N.eqb_neq in Hc. rewrite Hc. split; reflexivity.
  - destruct IH as (init & l & E1 & E2). cbn [split_nl app].
    destruct (N.eqb d c_nl).
    + exists ([] :: init), l. rewrite E1, E2. split; reflexivity.
    + rewrite E1, E2. destruct init as [|l0 init].
      * exists [], (d :: l). split; reflexivity.
      * exists ((d :: l0) :: init), l. split; reflexivity.
Qed.

Lemma lstrip_snoc_space (l : pstr) (c : pchar) :
  py_isspace c = true ->
  lstrip (l ++ [c]) = match lstrip l with [] => [] | _ => lstrip l ++ [c] end.
Proof.
  intros H. induction l as [|d l IH]; cbn [lstrip app].
  - rewrite H. reflexivity.
  - destruct (py_isspace d); [exact IH|reflexivity].
Qed.

Lemma strip_snoc_space (l : pstr) (c : pchar) :
  py_isspace c = true -> strip (l ++ [c]) = strip l.
Proof.
  intros H. unfold strip. rewrite lstrip_snoc_space by exact H.
  destruct (lstrip l) as [|d r]; [reflexivity|].
  rewrite rev_app_distr. cbn [rev app lstrip]. rewrite H. reflexivity.
Qed.

Lemma stripped_lines_snoc_space (s : pstr) (c : pchar) :
  py_isspace c = true -> stripped_lines (s ++ [c]) = stripped_lines s.
Proof.
  intros H. destruct (N.eqb_spec c c_nl) as [->|Hc].
  - rewrite stripped_lines_app_nl. rewrite <- (app_nil_r (stripped_lines s)) at 2.
    reflexivity.
  - destruct (split_nl_snoc s c Hc) as (init & l & E1 & E2).
    unfold stripped_lines. rewrite E1, E2, !map_app, !List.filter_app.
    cbn [map]. rewrite strip_snoc_space by exact H. reflexivity.
Qed.

Lemma stripped_lines_lstrip (s : pstr) : stripped_lines (lstrip s) = stripped_lines s.
Proof.
  induction s as [|c s IH]; [reflexivity|]. cbn [lstrip].
  destruct (py_isspace c) eqn:E; [|reflexivity].
  rewrite IH. symmetry. apply stripped_lines_cons_space, E.
Qed.

Lemma stripped_lines_rev_lstrip (r : pstr) :
  stripped_lines (rev (lstrip r)) = stripped_lines (rev r).
Proof.
  induction r as [|c r IH]; [reflexivity|]. cbn [lstrip rev].
  destruct (py_isspace c) eqn:E; [|reflexivity].
  rewrite IH. symmetry. apply stripped_lines_snoc_space, E.
Qed.

Lemma stripped_lines_strip (s : pstr) : stripped_lines (strip s) = stripped_lines s.
Proof.
  unfold strip. rewrite stripped_lines_rev_lstrip, List.rev_involutive.
  apply stripped_lines_lstrip.
Qed.

Lemma extract_fold (pages : list (option pstr)) (acc : pstr) :
  fold_left (fun text page_text =>
               match page_text with
               | Some t => if nonempty t then text ++ (t ++ [c_nl; c_nl]) else text
               | None => text
               end) pages acc =
  acc ++ concat (map (fun page_text =>
                        match page_text with
                        | Some t => if nonempty t then t ++ [c_nl; c_nl] else []
                        | None => []
                        end) pages).
Proof.
  revert acc. induction pages as [|[t|] pages IH]; intros acc.
  - cbn. rewrite app_nil_r. reflexivity.
  - cbn [fold_left map concat]. rewrite IH.
    destruct (nonempty t); [|reflexivity]. rewrite <- !app_assoc. reflexivity.
  - cbn [fold_left map concat]. rewrite IH. reflexivity.
Qed.

Lemma stripped_lines_pieces (pages : list (option pstr)) :
  stripped_lines (concat (map (fun page_text =>
                        match page_text with
                        | Some t => if nonempty t then t ++ [c_nl; c_nl] else []
                        | None => []
                        end) pages)) =
  flat_map (fun page_text =>
              match page_text with Some t => stripped_lines t | None => [] end) pages.
Proof.
  induction pages as [|[t|] pages IH]; [reflexivity| |exact IH].
  cbn [map concat flat_map]. rewrite <- IH.
  destruct (nonempty t) eqn:E.
  - rewrite <- app_assoc. cbn [app].
    rewrite stripped_lines_app_nl.
    change (c_nl :: ?r) with ([] ++ c_nl :: r).
    rewrite stripped_lines_app_nl. reflexivity.
  - destruct t; [reflexivity|discriminate].
Qed.

(** The blocks of the extracted text are those of its pages in turn. *)
Lemma identify_structure_of_pages (U : str_methods) (pages : list (option pstr)) :
  identify_structure U (extract_text_pages pages) =
  flat_map (fun page_text =>
              match page_text with Some t => identify_structure U t | None => [] end) pages.
Proof.
  unfold extract_text_pages. rewrite identify_structure_lines, stripped_lines_strip,
    extract_fold, app_nil_l, stripped_lines_pieces.
  induction pages as [|[t|] pages IH]; [reflexivity| |exact IH].
  cbn [flat_map]. rewrite map_app, IH, identify_structure_lines. reflexivity.
Qed.

(** ** The emitter *)

Lemma bs_ok_not_item (e : pstr) : bs_ok e = true -> is_item_line e = false.
Proof.
  intros H. destruct e as [|c e]; [reflexivity|].
  destruct (N.eqb_spec c c_backslash) as [->|Hc].
  - destruct e as [|d e]; [reflexivity|].
    cbn [bs_ok] in H. rewrite N.eqb_refl in H. apply andb_prop in H as [Hd _].
    apply N.eqb_eq in Hd. subst d. reflexivity.
  - unfold is_item_line, startswith. apply is_prefix_head. intros E. apply Hc. rewrite <- E. reflexivity.
Qed.

Ltac item_lines :=
  repeat match goal with
  | |- context [is_item_line ?l] =>
      let E := fresh "E" in
      first [ assert (E : is_item_line l = false)
                by first [ reflexivity | apply bs_ok_not_item, bs_ok_escape_latex ]
            | assert (E : is_item_line l = true) by reflexivity ];
      rewrite E; clear E
  end.

Lemma emit_block_items (st : emitter_state) (b : block) :
  length (List.filter is_item_line (fst (emit_block st b))) =
  if is_bullet_block b then 1 else 0.
Proof.
  destruct b as [ty content], st as [[|] [|]], ty;
    cbn [emit_block fst close_lists in_itemize in_subitemize app List.filter];
    item_lines; reflexivity.
Qed.

Lemma emit_body_items (st : emitter_state) (bs : list block) :
  length (List.filter is_item_line (fst (emit_body st bs))) =
  length (List.filter is_bullet_block bs).
Proof.
  revert st. induction bs as [|b bs IH]; intros st; [reflexivity|].
  cbn [emit_body]. pose proof (emit_block_items st b) as Hb.
  destruct (emit_block st b) as [ls st'] eqn:Eb. specialize (IH st').
  destruct (emit_body st' bs) as [ls' st''] eqn:Ebs. cbn [fst] in *.
  rewrite List.filter_app, length_app, Hb, IH. cbn [List.filter].
  destruct (is_bullet_block b); reflexivity.
Qed.

(** X5. [convert_to_latex] emits exactly one [\item] line per bullet
    block (primary or secondary) and no other line starting with
    [\item]. *)
Theorem convert_to_latex_item_count (structured_content : list block) :
  length (List.filter is_item_line (convert_to_latex_lines structured_content)) =
  length (List.filter is_bullet_block structured_content).
Proof.
  unfold convert_to_latex_lines.
  pose proof (emit_body_items initial_emitter_state structured_content) as H.
  destruct (emit_body initial_emitter_state structured_content) as [body st].
  cbn [fst] in H. rewrite !List.filter_app, !length_app, H.
  assert (Hc : length (List.filter is_item_line (close_lists st)) = 0)
    by (destruct st as [[|] [|]]; reflexivity).
  change (length (List.filter is_item_line latex_header)) with 0.
  change (length (List.filter is_item_line latex_footer)) with 0.
  rewrite Hc. lia.
Qed.

Lemma pdb_nil (d : nat) : d <= 2 -> prefix_depths_bounded d [].
Proof. intros H n. exists d. rewrite firstn_nil. split; [reflexivity|exact H]. Qed.

Lemma pdb_begin (d : nat) (ls : list pstr) :
  d <= 2 -> prefix_depths_bounded (S d) ls ->
  prefix_depths_bounded d (itemize_begin :: ls).
Proof.
  intros Hd H [|n]; [exists d; split; [reflexivity|exact Hd]|].
  cbn [firstn]. rewrite depth_begin. apply H.
Qed.

Lemma pdb_end (d : nat) (ls : list pstr) :
  S d <= 2 -> prefix_depths_bounded d ls ->
  prefix_depths_bounded (S d) (itemize_end :: ls).
Proof.
  intros Hd H [|n]; [exists (S d); split; [reflexivity|exact Hd]|].
  cbn [firstn]. rewrite depth_end. apply H.
Qed.

Lemma pdb_safe (d : nat) (l : pstr) (ls : list pstr) :
  d <= 2 -> safe_b l = true -> prefix_depths_bounded d ls ->
  prefix_depths_bounded d (l :: ls).
Proof.
  intros Hd Hl H [|n]; [exists d; split; [reflexivity|exact Hd]|].
  cbn [firstn]. rewrite depth_safe by exact Hl. apply H.
Qed.

Lemma pdb_app (d d' : nat) (l1 l2 : list pstr) :
  prefix_depths_bounded d l1 -> itemize_depth d l1 = Some d' ->
  prefix_depths_bounded d' l2 -> prefix_depths_bounded d (l1 ++ l2).
Proof.
  intros H1 Hd H2 n. rewrite firstn_app.
  destruct (Nat.le_gt_cases n (length l1)) as [Hn|Hn].
  - replace (n - length l1) with 0 by lia. rewrite firstn_O, app_nil_r. apply H1.
  - rewrite firstn_all2 by lia. rewrite itemize_depth_app, Hd. apply H2.
Qed.

Ltac pdb_tac :=
  repeat first
    [ apply pdb_nil; lia
    | apply pdb_begin; [lia|]
    | apply pdb_end; [lia|]
    | apply pdb_safe; [lia|safe_tac|] ].

Lemma emit_block_pdb (st : emitter_state) (b : block) :
  prefix_depths_bounded (open_lists st) (fst (emit_block st b)).
Proof.
  destruct b as [ty content], st as [[|] [|]], ty;
    cbn [emit_block fst close_lists in_itemize in_subitemize app open_lists Nat.add];
    pdb_tac.
Qed.

Lemma emit_body_pdb (st : emitter_state) (bs : list block) :
  prefix_depths_bounded (open_lists st) (fst (emit_body st bs)).
Proof.
  revert st. induction bs as [|b bs IH]; intros st.
  - apply pdb_nil. destruct st as [[|] [|]]; cbn; lia.
  - cbn [emit_body]. pose proof (emit_block_pdb st b) as Hb.
    pose proof (emit_block_depth st b 0) as Hd. rewrite !Nat.add_0_r in Hd.
    destruct (emit_block st b) as [ls st'] eqn:Eb. specialize (IH st').
    destruct (emit_body st' bs) as [ls' st''] eqn:Ebs. cbn [fst snd] in *.
    exact (pdb_app _ _ _ _ Hb Hd IH).
Qed.

(** X6. at every point of the output of [convert_to_latex], itemize
    environments are balanced so far (no [\end{itemize}] without an open
    list) and at most two are open: lists never nest deeper than two. *)
Theorem convert_to_latex_depth_at_most_2 (structured_content : list block) (n : nat) :
  exists k,
    itemize_depth 0 (firstn n (convert_to_latex_lines structured_content)) = Some k /\
    k <= 2.
Proof.
  revert n. fold (prefix_depths_bounded 0 (convert_to_latex_lines structured_content)).
  unfold convert_to_latex_lines.
  pose proof (emit_body_pdb initial_emitter_state structured_content) as Hb.
  pose proof (emit_body_depth structured_content initial_emitter_state 0) as Hd.
  destruct (emit_body initial_emitter_state structured_content) as [body st].
  cbn [fst snd open_lists initial_emitter_state in_itemize in_subitemize Nat.add] in *.
  rewrite Nat.add_0_r in Hd.
  apply (pdb_app 0 0); [unfold latex_header; pdb_tac|reflexivity|].
  apply (pdb_app 0 (open_lists st)); [exact Hb|exact Hd|].
  apply (pdb_app (open_lists st) 0).
  - destruct st as [[|] [|]]; cbn; pdb_tac.
  - pose proof (close_lists_depth st 0) as Hc. rewrite Nat.add_0_r in Hc. exact Hc.
  - unfold latex_footer. pdb_tac.
Qed.

(** ** Passes run by the driver *)













(** ** Copies *)

Lemma copy2_cases (src dst : path) (w : world) :
  (exists c, w_fs w !! src = Some (File c) /\
     copy2 src dst w =
       (Ok tt, set_fs (<[match w_fs w !! dst with
                          | Some Dir => dst ++ [path_name src]
                          | _ => dst end := File c]> (w_fs w)) w)) \/
  (exists e, copy2 src dst w = (Raise e, w)).
Proof.
  unfold copy2.
  destruct (w_fs w !! src) as [[|c]|]; [right; eexists; reflexivity| |right; eexists; reflexivity].
  set (t := match w_fs w !! dst with Some Dir => dst ++ [path_name src] | _ => dst end).
  destruct (w_fs w !! t) as [[|c']|]; [right; eexists; reflexivity| |];
  (destruct (parent_is_dir (w_fs w) t); [left; exists c; split; reflexivity|right; eexists; reflexivity]).
Qed.


Lemma path_snoc_neq (p : path) (n : pstr) : p ++ [n] <> p.
Proof. intros E. apply (f_equal length) in E. rewrite length_app in E. simpl in E. lia. Qed.






















Lemma filter_first {A} (p : A -> bool) (l : list A) (e : A) (rest : list A) :
  List.filter p l = e :: rest ->
  p e = true /\ exists pre post, l = pre ++ e :: post /\ Forall (fun x => p x = false) pre.
Proof.
  revert rest. induction l as [|a l IH]; intros rest H; [discriminate|].
  cbn in H. destruct (p a) eqn:Ea.
  - injection H as <- _. split; [exact Ea|]. exists [], l. split; [reflexivity|constructor].
  - destruct (IH rest H) as (He & pre & post & Hl & Hpre). split; [exact He|].
    exists (a :: pre), post. split; [rewrite Hl; reflexivity|constructor; assumption].
Qed.

Lemma filter_nil_forall {A} (p : A -> bool) (l : list A) :
  List.filter p l = [] -> Forall (fun x => p x = false) l.
Proof.
  induction l as [|a l IH]; intros H; [constructor|].
  cbn in H. destruct (p a) eqn:Ea; [discriminate|]. constructor; [exact Ea|apply IH, H].
Qed.

(** X11. [_check_latex_installation] keeps the requested engine when it is
    installed; otherwise it switches to the first installed engine of
    pdflatex, xelatex, lualatex, and it raises the "No LaTeX engine
    found" exception exactly when neither the requested engine nor any
    of the three is installed. *)
Theorem check_latex_installation_spec (which : pstr -> bool) (engine : pstr) :
  match check_latex_installation which engine with
  | Ok e =>
      which e = true /\ (which engine = true -> e = engine) /\
      (which engine = false ->
       exists pre post, supported_engines = pre ++ e :: post /\
         Forall (fun x => which x = false) pre)
  | Raise ex =>
      ex = Exception msg_no_engine /\ which engine = false /\
      Forall (fun x => which x = false) supported_engines
  end.
Proof.
  unfold check_latex_installation. destruct (which engine) eqn:Ew.
  - split; [exact Ew|]. split; [reflexivity|discriminate].
  - destruct (List.filter which supported_engines) as [|e rest] eqn:Ef.
    + split; [reflexivity|]. split; [reflexivity|]. apply filter_nil_forall, Ef.
    + destruct (filter_first which supported_engines e rest Ef) as (He & Hpre).
      split; [exact He|]. split; [discriminate|]. intros _. exact Hpre.
Qed.

(** X12. when the PDF reads as [pages] and the output location is writable,
    [convert_pdf_to_latex] returns the LaTeX built from the blocks of
    each page classified on its own, one page after the other, and the
    only change to the file system is the output file, which holds
    exactly the returned text. *)
Theorem convert_pdf_to_latex_writes_result (U : str_methods) (reader : pdf_reader)
    (pdf_path : path) (output_path : option path) (pages : list (option pstr)) (w : world) :
  let out := match output_path with
             | None => with_suffix pdf_path (lit ".tex") | Some p => p end in
  reader pdf_path (w_fs w) = inr pages ->
  w_fs w !! out <> Some Dir -> parent_is_dir (w_fs w) out = true ->
  let latex := convert_to_latex
                 (flat_map (fun page_text =>
                              match page_text with
                              | Some t => identify_structure U t
                              | None => []
                              end) pages) in
  convert_pdf_to_latex U reader pdf_path output_path w =
    (Ok latex, set_fs (<[out := File latex]> (w_fs w)) w).
Proof.
  intros out Hr Hd Hp latex. unfold convert_pdf_to_latex, bindM, extract_text_from_pdf.
  rewrite Hr. fold out. unfold write_text.
  rewrite identify_structure_of_pages. fold latex.
  destruct (w_fs w !! out) as [[|c]|] eqn:E; [contradiction| |]; rewrite Hp; reflexivity.
Qed.

Lemma parse_loop_closed (lines rest errors warnings : list pstr) (i : nat) :
  skipn i lines = rest ->
  parse_loop lines i rest errors warnings =
    (errors ++ map (fun j => join_nl (error_context lines j))
                 (List.filter (fun j => is_error_line (nth j lines [])) (seq i (length rest))),
     warnings ++ map strip (List.filter (fun l => negb (is_error_line l) && is_warning_line l) rest)).
Proof.
  revert i errors warnings. induction rest as [|line rest IH]; intros i errors warnings H.
  - cbn. rewrite !app_nil_r. reflexivity.
  - destruct (skipn_cons_nth _ lines i line rest [] H) as [Hn Hs].
    cbn [parse_loop length seq List.filter]. rewrite Hn.
    destruct (is_error_line line); cbn [negb andb].
    + rewrite (IH (S i) _ _ Hs). cbn [map]. rewrite <- app_assoc. reflexivity.
    + destruct (is_warning_line line).
      * rewrite (IH (S i) _ _ Hs). cbn [map]. rewrite <- app_assoc. reflexivity.
      * exact (IH (S i) _ _ Hs).
Qed.

(** X13. [_parse_latex_errors] returns one error block per error line of the
    log, in log order, each being the context window around that line,
    and as warnings the stripped warning lines that are not error lines,
    in log order. *)
Theorem parse_latex_errors_closed_form (log_content : pstr) :
  let lines := split_nl log_content in
  parse_latex_errors log_content =
    (map (fun i => join_nl (error_context lines i))
       (List.filter (fun i => is_error_line (nth i lines [])) (seq 0 (length lines))),
     map strip (List.filter (fun l => negb (is_error_line l) && is_warning_line l) lines)).
Proof.
  intros lines. unfold parse_latex_errors. fold lines.
  apply parse_loop_closed. reflexivity.
Qed.

Lemma rmtree_lookup_outside (tmp q : path) (fs : gmap path node) :
  ~ tmp `prefix_of` q -> rmtree tmp fs !! q = fs !! q.
Proof.
  intros H. unfold rmtree. rewrite map_lookup_filter.
  destruct (fs !! q) as [n|]; cbn; [|reflexivity].
  rewrite option_guard_True by exact H. reflexivity.
Qed.

Lemma compile_in_scratch_ok_inv (engine_name : pstr) (verbose : bool)
    (engine : engine_oracle) (log_file pdf_file output_pdf p : path) (max_passes : Z)
    (w w' : world) :
  compile_in_scratch engine_name verbose engine log_file pdf_file output_pdf
    max_passes w = (Ok p, w') ->
  p = output_pdf /\ exists n, w_fs w' !! output_pdf = Some n.
Proof.
  unfold compile_in_scratch, bindM at 1.
  destruct (pass_loop _ _ _ _ _ _ _) as [[last_log|e] w1]; [|discriminate].
  unfold bindM at 1, path_exists. cbn [negb].
  destruct (w_fs w1 !! pdf_file) as [n|]; [|discriminate]. cbn [negb].
  unfold bindM at 1.
  destruct (copy2_cases pdf_file output_pdf w1) as [(c & _ & E)|(e & E)];
    rewrite E; [|discriminate].
  set (w3 := set_fs _ w1).
  assert (H3 : exists n, w_fs w3 !! output_pdf = Some n).
  { unfold w3, set_fs; cbn [w_fs].
    destruct (w_fs w1 !! output_pdf) as [[|c']|] eqn:Eo.
    - rewrite lookup_insert_ne by apply path_snoc_neq. rewrite Eo. eauto.
    - rewrite lookup_insert_eq. eauto.
    - rewrite lookup_insert_eq. eauto. }
  unfold bindM.
  destruct verbose, last_log; cbn; try discriminate;
    intros Hp; injection Hp as <- <-; split; (reflexivity || exact H3).
Qed.

(** X14. when [convert_to_pdf] succeeds it returns the output path it chose
    ([output_pdf], or the .tex path with suffix .pdf), and, unless that
    path lies inside the scratch directory, something exists at that path
    afterwards (the PDF, or the directory the PDF was copied into). *)
Theorem convert_to_pdf_returns_output (U : str_methods) (engine_name : pstr)
    (verbose : bool) (engine : engine_oracle) (tmp tex_file : path)
    (output_pdf : option path) (max_passes : Z) (w w' : world) (p : path) :
  convert_to_pdf U engine_name verbose engine tmp tex_file output_pdf max_passes w
    = (Ok p, w') ->
  p = match output_pdf with None => with_suffix tex_file (lit ".pdf") | Some q => q end /\
  (~ tmp `prefix_of` p -> exists n, w_fs w' !! p = Some n).
Proof.
  unfold convert_to_pdf, bindM at 1, path_exists.
  destruct (negb _); [discriminate|]. destruct (negb _); [discriminate|].
  unfold with_temporary_directory.
  set (out := match output_pdf with None => with_suffix tex_file (lit ".pdf") | Some q => q end).
  unfold bindM at 1.
  destruct (copy2 _ _ _) as [[[]|e] w2]; [|discriminate].
  unfold bindM at 1.
  destruct (copy_additional_files _ _ _ _) as [[[]|e] w3]; [|discriminate].
  destruct (compile_in_scratch _ _ _ _ _ _ _ _) as [r w4] eqn:Eb.
  intros H. injection H as -> <-.
  destruct (compile_in_scratch_ok_inv _ _ _ _ _ _ _ _ _ _ Eb) as [Hp [n Hn]].
  split; [exact Hp|]. intros Ht. exists n.
  unfold set_fs; cbn [w_fs]. rewrite rmtree_lookup_outside by exact Ht.
  rewrite Hp. exact Hn.
Qed.

(* ------------------------------------------------------------------ *)
(** ** Instances of the further properties *)

Lemma secondary_bullet_on_stripped_line_witness :
  strip (c_white_circle :: lit " sub") = c_white_circle :: lit " sub" /\
  is_secondary_bullet (c_white_circle :: lit " sub") =
    startswith (c_white_circle :: lit " sub") [c_white_circle].
Proof.
  assert (H : strip (c_white_circle :: lit " sub") = c_white_circle :: lit " sub")
    by (vm_compute; reflexivity).
  split; [exact H|]. exact (secondary_bullet_on_stripped_line _ H).
Defined.




Lemma convert_pdf_to_latex_writes_result_witness :
  let latex := convert_to_latex
                 (flat_map (fun page_text =>
                              match page_text with
                              | Some t => identify_structure ascii_methods t
                              | None => []
                              end) ex_pages) in
  ex_reader ex_out_pdf (w_fs ex_world) = inr ex_pages /\
  w_fs ex_world !! ex_tex <> Some Dir /\ parent_is_dir (w_fs ex_world) ex_tex = true /\
  convert_pdf_to_latex ascii_methods ex_reader ex_out_pdf None ex_world =
    (Ok latex, set_fs (<[ex_tex := File latex]> (w_fs ex_world)) ex_world).
Proof.
  intros latex.
  assert (H1 : ex_reader ex_out_pdf (w_fs ex_world) = inr ex_pages) by reflexivity.
  assert (H2 : w_fs ex_world !! with_suffix ex_out_pdf (lit ".tex") <> Some Dir)
    by (vm_compute; discriminate).
  assert (H3 : parent_is_dir (w_fs ex_world) (with_suffix ex_out_pdf (lit ".tex")) = true)
    by (vm_compute; reflexivity).
  split; [exact H1|]. split; [exact H2|]. split; [exact H3|].
  exact (convert_pdf_to_latex_writes_result ascii_methods ex_reader ex_out_pdf None
           ex_pages ex_world H1 H2 H3).
Defined.

Lemma convert_to_pdf_returns_output_witness :
  let w' := snd (convert_to_pdf ascii_methods (lit "pdflatex") false ex_two_pass_engine
                   ex_tmp ex_tex None 3 ex_world) in
  convert_to_pdf ascii_methods (lit "pdflatex") false ex_two_pass_engine
    ex_tmp ex_tex None 3 ex_world = (Ok ex_out_pdf, w') /\
  ex_out_pdf = with_suffix ex_tex (lit ".pdf") /\
  (~ ex_tmp `prefix_of` ex_out_pdf -> exists n, w_fs w' !! ex_out_pdf = Some n).
Proof.
  intros w'.
  assert (H : convert_to_pdf ascii_methods (lit "pdflatex") false ex_two_pass_engine
                ex_tmp ex_tex None 3 ex_world = (Ok ex_out_pdf, w'))
    by (vm_compute; reflexivity).
  split; [exact H|].
  exact (convert_to_pdf_returns_output ascii_methods (lit "pdflatex") false
           ex_two_pass_engine ex_tmp ex_tex None 3 ex_world w' ex_out_pdf H).
Defined.
